(** * overflow-wc: the item-overflow component (src/item-overflow-v2.ts)

    A shallow embedding of the [OverflowWc] custom element and of the part
    of its host (the reactive base class, promise continuations, timers and
    resize observers) that its methods talk to, followed by the properties
    of the fit computation, the measurement pass, the render dispatch, the
    resize debounce and the teardown path.

    Numbers are JavaScript numbers without rounding: rationals extended
    with the two infinities and NaN.  Every sum the component forms is then
    exact; the rounding of IEEE doubles is outside this development. *)

From Stdlib Require Import QArith Lqa Lia String.
From stdpp Require Import base tactics option list strings.

Local Open Scope string_scope.
Local Open Scope list_scope.
Local Open Scope nat_scope.

(* ================================================================== *)
(** * Part I: definitions                                              *)
(* ================================================================== *)

(** ** JavaScript numbers *)

Inductive number : Type :=
| Fin (q : Q)
| PInf
| NInf
| NaN.

(** [a + b] *)
Definition num_add (a b : number) : number :=
  match a, b with
  | NaN, _ | _, NaN => NaN
  | Fin p, Fin q => Fin (p + q)%Q
  | PInf, NInf | NInf, PInf => NaN
  | PInf, _ | _, PInf => PInf
  | NInf, _ | _, NInf => NInf
  end.

(** [a <= b]; every comparison with NaN is false *)
Definition num_le (a b : number) : bool :=
  match a, b with
  | NaN, _ | _, NaN => false
  | Fin p, Fin q => Qle_bool p q
  | NInf, _ => true
  | _, PInf => true
  | _, _ => false
  end.

(** ToBoolean on a number: 0 and NaN are falsy *)
Definition truthy (a : number) : bool :=
  match a with
  | Fin q => negb (Qeq_bool q 0)
  | NaN => false
  | PInf | NInf => true
  end.

(** [v || 0] for [v : number | undefined] *)
Definition or_zero (v : option number) : number :=
  match v with
  | Some n => if truthy n then n else Fin 0
  | None => Fin 0
  end.

(** The same number up to the representation of the rational. *)
Definition num_eq (a b : number) : Prop :=
  match a, b with
  | Fin p, Fin q => (p == q)%Q
  | PInf, PInf | NInf, NInf | NaN, NaN => True
  | _, _ => False
  end.

(** ** JavaScript arrays: a hole reads as [undefined], and so does an
    index past the end; a write past the end grows the array. *)

Abbreviation array A := (list (option A)) (only parsing).

Definition arr_get {A} (a : array A) (i : nat) : option A := mjoin (a !! i).

Definition arr_set {A} (a : array A) (i : nat) (v : A) : array A :=
  if decide (i < length a)
  then <[i := Some v]> a
  else a ++ replicate (i - length a) None ++ [Some v].

(** ** The DOM as the component reads it *)

Record HTMLElement : Type := {
  clientWidth : number;                (* el.clientWidth *)
  boundingClientRectWidth : number;    (* el.getBoundingClientRect().width *)
}.

(** [Ref<HTMLElement>]: [value] is written by the host's [ref] directive. *)
Record Ref : Type := { value : option HTMLElement }.

Definition createRef : Ref := {| value := None |}.

Record Item : Type := {
  label : option string;
  _width : option number;
}.

(** What the injected renderer returns. *)
Inductive TemplateResult : Type := html (markup : string).

(** What [render] returns: the four templates of the method.  A span of
    the hidden container carries the argument of its [ref(...)] directive:
    the position of the Ref object in [itemRefs], or [None] for
    [ref(undefined)]. *)
Inductive RenderResult : Type :=
| NoRendererDiv
| HiddenMeasure (spans : list (option nat * TemplateResult))
| nothing
| Spans (spans : list TemplateResult).

(** The target of [observe(this.parentElement || this)]. *)
Inductive Target : Type := ParentElement | This.

(** ** The component *)

Record OverflowWc : Type := {
  itemRefs : array Ref;
  resizeObserver : option nat;        (* ResizeObserver | null, by identity *)
  resizeTimeout : option nat;         (* number | undefined *)
  measuredWidths : array number;      (* @state *)
  measured : bool;                    (* @state *)
  visibleCount : nat;                 (* @state *)
  items : list Item;                  (* @property *)
  renderer : option (Item → nat → TemplateResult);   (* @property *)
  (* fields of the reactive base class *)
  hasUpdated : bool;
  isUpdatePending : bool;
  changedProperties : list string;
}.

Definition with_itemRefs (v : array Ref) (c : OverflowWc) : OverflowWc :=
  {| itemRefs := v; resizeObserver := resizeObserver c;
     resizeTimeout := resizeTimeout c; measuredWidths := measuredWidths c;
     measured := measured c; visibleCount := visibleCount c;
     items := items c; renderer := renderer c; hasUpdated := hasUpdated c;
     isUpdatePending := isUpdatePending c;
     changedProperties := changedProperties c |}.

Definition with_resizeObserver (v : option nat) (c : OverflowWc) : OverflowWc :=
  {| itemRefs := itemRefs c; resizeObserver := v;
     resizeTimeout := resizeTimeout c; measuredWidths := measuredWidths c;
     measured := measured c; visibleCount := visibleCount c;
     items := items c; renderer := renderer c; hasUpdated := hasUpdated c;
     isUpdatePending := isUpdatePending c;
     changedProperties := changedProperties c |}.

Definition with_resizeTimeout (v : option nat) (c : OverflowWc) : OverflowWc :=
  {| itemRefs := itemRefs c; resizeObserver := resizeObserver c;
     resizeTimeout := v; measuredWidths := measuredWidths c;
     measured := measured c; visibleCount := visibleCount c;
     items := items c; renderer := renderer c; hasUpdated := hasUpdated c;
     isUpdatePending := isUpdatePending c;
     changedProperties := changedProperties c |}.

Definition with_hasUpdated (v : bool) (c : OverflowWc) : OverflowWc :=
  {| itemRefs := itemRefs c; resizeObserver := resizeObserver c;
     resizeTimeout := resizeTimeout c; measuredWidths := measuredWidths c;
     measured := measured c; visibleCount := visibleCount c;
     items := items c; renderer := renderer c; hasUpdated := v;
     isUpdatePending := isUpdatePending c;
     changedProperties := changedProperties c |}.

(** [requestUpdate(name)]: the reactive base class notes the property and
    marks an update pending. *)
Definition requestUpdate (name : string) (c : OverflowWc) : OverflowWc :=
  {| itemRefs := itemRefs c; resizeObserver := resizeObserver c;
     resizeTimeout := resizeTimeout c; measuredWidths := measuredWidths c;
     measured := measured c; visibleCount := visibleCount c;
     items := items c; renderer := renderer c; hasUpdated := hasUpdated c;
     isUpdatePending := true;
     changedProperties :=
       if bool_decide (name ∈ changedProperties c)
       then changedProperties c else changedProperties c ++ [name] |}.

(** The host takes the changed properties for the update it performs and
    clears the pending mark. *)
Definition markUpdated (c : OverflowWc) : OverflowWc :=
  {| itemRefs := itemRefs c; resizeObserver := resizeObserver c;
     resizeTimeout := resizeTimeout c; measuredWidths := measuredWidths c;
     measured := measured c; visibleCount := visibleCount c;
     items := items c; renderer := renderer c; hasUpdated := hasUpdated c;
     isUpdatePending := false; changedProperties := [] |}.

(** Assignments to the reactive fields go through the accessor of the
    base class: a value that differs requests an update. *)
Definition set_measuredWidths (v : array number) (c : OverflowWc) : OverflowWc :=
  requestUpdate "measuredWidths"
    {| itemRefs := itemRefs c; resizeObserver := resizeObserver c;
       resizeTimeout := resizeTimeout c; measuredWidths := v;
       measured := measured c; visibleCount := visibleCount c;
       items := items c; renderer := renderer c; hasUpdated := hasUpdated c;
       isUpdatePending := isUpdatePending c;
       changedProperties := changedProperties c |}.

Definition set_measured (v : bool) (c : OverflowWc) : OverflowWc :=
  if Bool.eqb v (measured c) then c else
  requestUpdate "measured"
    {| itemRefs := itemRefs c; resizeObserver := resizeObserver c;
       resizeTimeout := resizeTimeout c; measuredWidths := measuredWidths c;
       measured := v; visibleCount := visibleCount c;
       items := items c; renderer := renderer c; hasUpdated := hasUpdated c;
       isUpdatePending := isUpdatePending c;
       changedProperties := changedProperties c |}.

Definition set_visibleCount (v : nat) (c : OverflowWc) : OverflowWc :=
  if v =? visibleCount c then c else
  requestUpdate "visibleCount"
    {| itemRefs := itemRefs c; resizeObserver := resizeObserver c;
       resizeTimeout := resizeTimeout c; measuredWidths := measuredWidths c;
       measured := measured c; visibleCount := v;
       items := items c; renderer := renderer c; hasUpdated := hasUpdated c;
       isUpdatePending := isUpdatePending c;
       changedProperties := changedProperties c |}.

(** The caller assigns a new array. *)
Definition set_items (v : list Item) (c : OverflowWc) : OverflowWc :=
  requestUpdate "items"
    {| itemRefs := itemRefs c; resizeObserver := resizeObserver c;
       resizeTimeout := resizeTimeout c; measuredWidths := measuredWidths c;
       measured := measured c; visibleCount := visibleCount c;
       items := v; renderer := renderer c; hasUpdated := hasUpdated c;
       isUpdatePending := isUpdatePending c;
       changedProperties := changedProperties c |}.

Definition set_renderer (v : option (Item → nat → TemplateResult))
    (c : OverflowWc) : OverflowWc :=
  requestUpdate "renderer"
    {| itemRefs := itemRefs c; resizeObserver := resizeObserver c;
       resizeTimeout := resizeTimeout c; measuredWidths := measuredWidths c;
       measured := measured c; visibleCount := visibleCount c;
       items := items c; renderer := v; hasUpdated := hasUpdated c;
       isUpdatePending := isUpdatePending c;
       changedProperties := changedProperties c |}.

(** The instance after its constructor: the field initialisers have gone
    through the accessors, so every reactive field is noted as changed. *)
Definition new_OverflowWc : OverflowWc :=
  {| itemRefs := []; resizeObserver := None; resizeTimeout := None;
     measuredWidths := []; measured := false; visibleCount := 0;
     items := []; renderer := None; hasUpdated := false;
     isUpdatePending := true;
     changedProperties :=
       ["measuredWidths"; "measured"; "visibleCount"; "items"; "renderer"] |}.

(** ** computeVisibleForCurrentWidth *)

(** The locals of the scan; [reads] lists the indices at which
    [this.measuredWidths[i]] was evaluated. *)
Record FitLocals : Type := {
  sum : number;
  count : nat;
  reads : list nat;
}.

(** The [for] loop from index [i] on; [fuel] bounds the iterations. *)
Fixpoint fit_loop (fuel : nat) (widths : array number) (containerWidth : number)
    (i : nat) (st : FitLocals) : FitLocals :=
  match fuel with
  | O => st
  | S fuel' =>
      if i <? length widths then
        let w := or_zero (arr_get widths i) in
        if num_le (num_add (sum st) w) containerWidth
        then fit_loop fuel' widths containerWidth (S i)
               {| sum := num_add (sum st) w; count := S (count st);
                  reads := reads st ++ [i] |}
        else {| sum := sum st; count := count st; reads := reads st ++ [i] |}
      else st
  end.

(** [this.parentElement?.clientWidth || 0] *)
Definition containerWidth_of (parentElement : option HTMLElement) : number :=
  or_zero (clientWidth <$> parentElement).

Definition fit_scan (widths : array number) (containerWidth : number) : FitLocals :=
  fit_loop (length widths) widths containerWidth 0
    {| sum := Fin 0; count := 0; reads := [] |}.

Definition fit_count (widths : array number) (containerWidth : number) : nat :=
  count (fit_scan widths containerWidth).

Definition computeVisibleForCurrentWidth (parentElement : option HTMLElement)
    (c : OverflowWc) : OverflowWc :=
  let containerWidth := containerWidth_of parentElement in
  let n := fit_count (measuredWidths c) containerWidth in
  if negb (n =? visibleCount c) then set_visibleCount n c else c.

(** ** ensureRefs, and the body of measureAllItems after its await *)

Definition ensureRefs (c : OverflowWc) : OverflowWc :=
  with_itemRefs
    (foldl (λ refs i,
              match arr_get refs i with
              | Some _ => refs
              | None => arr_set refs i createRef
              end)
       (itemRefs c) (seq 0 (length (items c))))
    c.

Definition measure_widths (c : OverflowWc) : array number :=
  foldl (λ widths i,
           let el := arr_get (itemRefs c) i ≫= value in
           arr_set widths i
             (match el with
              | Some e => boundingClientRectWidth e
              | None => Fin 0
              end))
    [] (seq 0 (length (items c))).

Definition measureAllItems_resumed (parentElement : option HTMLElement)
    (c : OverflowWc) : OverflowWc :=
  let widths := measure_widths c in
  let c := set_measuredWidths widths c in
  let c := set_measured true c in
  computeVisibleForCurrentWidth parentElement c.

(** ** render *)

Definition render (c : OverflowWc) : RenderResult :=
  match renderer c with
  | None => NoRendererDiv
  | Some r =>
      if negb (measured c) then
        HiddenMeasure
          (imap (λ index item,
                   (match arr_get (itemRefs c) index with
                    | Some _ => Some index
                    | None => None
                    end,
                    r item index))
             (items c))
      else if visibleCount c =? 0 then nothing
      else
        let toRender := take (visibleCount c) (items c) in
        Spans (imap (λ index item, r item index) toRender)
  end.

(** The host commits a render: the [ref] directive of a span stores the
    span's element in its Ref; a Ref whose span is not in the output holds
    [undefined].  [layout i] is the element the browser lays out for the
    span at position [i]. *)
Definition commit (out : RenderResult) (layout : nat → HTMLElement)
    (c : OverflowWc) : OverflowWc :=
  with_itemRefs
    (imap (λ i slot,
             (λ _ : Ref,
                {| value :=
                     match out with
                     | HiddenMeasure spans =>
                         match spans !! i with
                         | Some (Some _, _) => Some (layout i)
                         | _ => None
                         end
                     | _ => None
                     end |}) <$> slot)
       (itemRefs c))
    c.

(** ** The host: continuations, timers and resize observers *)

(** A suspended continuation of the component's asynchronous methods. *)
Inductive Task : Type :=
| ThenMeasure                        (* updateComplete.then(() => this.measureAllItems()) *)
| AwaitMeasure (inFirstUpdated : bool)   (* measureAllItems at its await *)
| FirstUpdatedRest.                  (* firstUpdated after await this.measureAllItems() *)

(** The component together with the host state its callbacks live in.
    [timers] are the pending timeouts (handle, deadline) in the order they
    were set, [observers] the resize observers that are observing, and
    [fits] the log of the fit computations performed (time, width used). *)
Record World : Type := {
  this : OverflowWc;
  connected : bool;
  updatingEnabled : bool;
  tasks : list Task;
  clock : nat;
  timers : list (nat * nat);
  nextTimer : nat;
  observers : list (nat * Target);
  nextObserver : nat;
  fits : list (nat * number);
}.

Definition with_this (c : OverflowWc) (w : World) : World :=
  {| this := c; connected := connected w; updatingEnabled := updatingEnabled w;
     tasks := tasks w; clock := clock w; timers := timers w;
     nextTimer := nextTimer w; observers := observers w;
     nextObserver := nextObserver w; fits := fits w |}.

Definition with_connected (b : bool) (w : World) : World :=
  {| this := this w; connected := b;
     updatingEnabled := updatingEnabled w || b;
     tasks := tasks w; clock := clock w; timers := timers w;
     nextTimer := nextTimer w; observers := observers w;
     nextObserver := nextObserver w; fits := fits w |}.

Definition with_tasks (ts : list Task) (w : World) : World :=
  {| this := this w; connected := connected w;
     updatingEnabled := updatingEnabled w;
     tasks := ts; clock := clock w; timers := timers w;
     nextTimer := nextTimer w; observers := observers w;
     nextObserver := nextObserver w; fits := fits w |}.

Definition with_clock (t : nat) (w : World) : World :=
  {| this := this w; connected := connected w;
     updatingEnabled := updatingEnabled w;
     tasks := tasks w; clock := t; timers := timers w;
     nextTimer := nextTimer w; observers := observers w;
     nextObserver := nextObserver w; fits := fits w |}.

Definition with_timers (tm : list (nat * nat)) (w : World) : World :=
  {| this := this w; connected := connected w;
     updatingEnabled := updatingEnabled w;
     tasks := tasks w; clock := clock w; timers := tm;
     nextTimer := nextTimer w; observers := observers w;
     nextObserver := nextObserver w; fits := fits w |}.

Definition with_observers (obs : list (nat * Target)) (w : World) : World :=
  {| this := this w; connected := connected w;
     updatingEnabled := updatingEnabled w;
     tasks := tasks w; clock := clock w; timers := timers w;
     nextTimer := nextTimer w; observers := obs;
     nextObserver := nextObserver w; fits := fits w |}.

(** [window.setTimeout(cb, delay)]: a fresh non-zero handle. *)
Definition setTimeout (delay : nat) (w : World) : nat * World :=
  (nextTimer w,
   {| this := this w; connected := connected w;
      updatingEnabled := updatingEnabled w;
      tasks := tasks w; clock := clock w;
      timers := timers w ++ [(nextTimer w, clock w + delay)];
      nextTimer := S (nextTimer w); observers := observers w;
      nextObserver := nextObserver w; fits := fits w |}).

Definition clearTimeout (handle : nat) (w : World) : World :=
  with_timers (filter (λ tm, tm.1 ≠ handle) (timers w)) w.

(** [new ResizeObserver(cb)] followed by [observe(target)] *)
Definition newResizeObserver (target : Target) (w : World) : nat * World :=
  (nextObserver w,
   {| this := this w; connected := connected w;
      updatingEnabled := updatingEnabled w;
      tasks := tasks w; clock := clock w; timers := timers w;
      nextTimer := nextTimer w;
      observers := observers w ++ [(nextObserver w, target)];
      nextObserver := S (nextObserver w); fits := fits w |}).

(** [observer.disconnect()] *)
Definition disconnectObserver (o : nat) (w : World) : World :=
  with_observers (filter (λ ob, ob.1 ≠ o) (observers w)) w.

(** A call of computeVisibleForCurrentWidth, noted in the log. *)
Definition fit (parentElement : option HTMLElement) (w : World) : World :=
  {| this := computeVisibleForCurrentWidth parentElement (this w);
     connected := connected w; updatingEnabled := updatingEnabled w;
     tasks := tasks w; clock := clock w; timers := timers w;
     nextTimer := nextTimer w; observers := observers w;
     nextObserver := nextObserver w;
     fits := fits w ++ [(clock w, containerWidth_of parentElement)] |}.

(** ** The lifecycle methods *)

(** firstUpdated up to the await inside measureAllItems *)
Definition firstUpdated (w : World) : World :=
  with_tasks (tasks w ++ [AwaitMeasure true]) (with_this (ensureRefs (this w)) w).

(** firstUpdated after [await this.measureAllItems()] *)
Definition firstUpdated_rest (parentElement : option HTMLElement) (w : World) : World :=
  match resizeObserver (this w) with
  | None =>
      let target := match parentElement with
                    | Some _ => ParentElement
                    | None => This
                    end in
      let '(o, w) := newResizeObserver target w in
      with_this (with_resizeObserver (Some o) (this w)) w
  | Some _ => w
  end.

Definition updated (changed : list string) (w : World) : World :=
  if bool_decide ("items" ∈ changed) then
    let c := set_measured false (this w) in
    let c := ensureRefs c in
    with_tasks (tasks w ++ [ThenMeasure]) (with_this c w)
  else w.

(** measureAllItems up to its await *)
Definition measureAllItems (inFirstUpdated : bool) (w : World) : World :=
  with_tasks (tasks w ++ [AwaitMeasure inFirstUpdated]) w.

(** measureAllItems after its await, as a step of the host *)
Definition measureAllItems_rest (inFirstUpdated : bool)
    (parentElement : option HTMLElement) (w : World) : World :=
  let c := set_measured true (set_measuredWidths (measure_widths (this w)) (this w)) in
  let w := fit parentElement (with_this c w) in
  if inFirstUpdated then with_tasks (tasks w ++ [FirstUpdatedRest]) w else w.

Definition disconnectedCallback (w : World) : World :=
  let w := match resizeObserver (this w) with
           | Some o =>
               with_this (with_resizeObserver None (this w))
                 (disconnectObserver o w)
           | None => w
           end in
  match resizeTimeout (this w) with
  | Some handle => if handle =? 0 then w else clearTimeout handle w
  | None => w
  end.

(** The callback handed to setTimeout by onContainerResize *)
Definition resize_timer_callback (parentElement : option HTMLElement)
    (w : World) : World :=
  let w := fit parentElement w in
  with_this (with_resizeTimeout None (this w)) w.

Definition onContainerResize (w : World) : World :=
  let w := match resizeTimeout (this w) with
           | Some handle => if handle =? 0 then w else clearTimeout handle w
           | None => w
           end in
  let '(handle, w) := setTimeout 50 w in
  with_this (with_resizeTimeout (Some handle) (this w)) w.

(** One update of the reactive base class: render and commit, take the
    changed properties, then firstUpdated (the first time) and updated. *)
Definition performUpdate (layout : nat → HTMLElement) (w : World) : World :=
  let changed := changedProperties (this w) in
  let out := render (this w) in
  let c := markUpdated (commit out layout (this w)) in
  let first := negb (hasUpdated c) in
  let w := with_this (with_hasUpdated true c) w in
  let w := if first then firstUpdated w else w in
  updated changed w.

(** ** Events of the host and the step function *)

Inductive Event : Type :=
| Connect
| Disconnect
| SetItems (v : list Item)
| SetRenderer (v : option (Item → nat → TemplateResult))
| PerformUpdate (layout : nat → HTMLElement)
| Resume (n : nat) (parentElement : option HTMLElement)
| ResizeNotify (o : nat)
| TimerFire (parentElement : option HTMLElement)
| AdvanceTo (t : nat).

Definition resume (t : Task) (parentElement : option HTMLElement) (w : World) : World :=
  match t with
  | ThenMeasure => measureAllItems false w
  | AwaitMeasure b => measureAllItems_rest b parentElement w
  | FirstUpdatedRest => firstUpdated_rest parentElement w
  end.

(** [step w e] is [None] when the host cannot deliver [e] in [w]: an
    update runs only when one is pending and updating is enabled, a
    continuation resumes only if suspended, a notification comes only from
    an observer that is observing, and a timeout fires only once its
    deadline is reached (the one set first goes first). *)
Definition step (w : World) (e : Event) : option World :=
  match e with
  | Connect =>
      if connected w then None else Some (with_connected true w)
  | Disconnect =>
      if connected w then Some (disconnectedCallback (with_connected false w))
      else None
  | SetItems v => Some (with_this (set_items v (this w)) w)
  | SetRenderer v => Some (with_this (set_renderer v (this w)) w)
  | PerformUpdate layout =>
      if updatingEnabled w && isUpdatePending (this w)
      then Some (performUpdate layout w) else None
  | Resume n parentElement =>
      match tasks w !! n with
      | Some t => Some (resume t parentElement (with_tasks (delete n (tasks w)) w))
      | None => None
      end
  | ResizeNotify o =>
      if bool_decide (o ∈ (observers w).*1) then Some (onContainerResize w)
      else None
  | TimerFire parentElement =>
      match timers w with
      | (handle, deadline) :: rest =>
          if deadline <=? clock w
          then Some (resize_timer_callback parentElement (with_timers rest w))
          else None
      | [] => None
      end
  | AdvanceTo t =>
      if clock w <=? t then Some (with_clock t w) else None
  end.

Fixpoint run (w : World) (evs : list Event) : option World :=
  match evs with
  | [] => Some w
  | e :: evs' =>
      match step w e with
      | Some w' => run w' evs'
      | None => None
      end
  end.

Definition initial : World :=
  {| this := new_OverflowWc; connected := false; updatingEnabled := false;
     tasks := []; clock := 0; timers := []; nextTimer := 1;
     observers := []; nextObserver := 0; fits := [] |}.

Definition reachable (w : World) : Prop := ∃ evs, run initial evs = Some w.

(** ** Timed schedules: the timers fire on time *)

(** Let the time pass up to [t], firing on its deadline every timeout that
    falls due on the way; [parentAt d] is the parent element at time [d]. *)
Fixpoint elapse (fuel : nat) (parentAt : nat → option HTMLElement) (t : nat)
    (w : World) : option World :=
  match timers w with
  | (_, deadline) :: _ =>
      if deadline <=? t then
        match fuel with
        | O => None
        | S fuel' =>
            match step w (AdvanceTo (deadline `max` clock w)) with
            | Some w1 =>
                match step w1 (TimerFire (parentAt (clock w1))) with
                | Some w2 => elapse fuel' parentAt t w2
                | None => None
                end
            | None => None
            end
        end
      else step w (AdvanceTo t)
  | [] => step w (AdvanceTo t)
  end.

(** Resize notifications of observer [o] at the times [ts]. *)
Fixpoint notifications (parentAt : nat → option HTMLElement) (o : nat)
    (ts : list nat) (w : World) : option World :=
  match ts with
  | [] => Some w
  | t :: ts' =>
      match elapse (length (timers w)) parentAt t w with
      | Some w1 =>
          match step w1 (ResizeNotify o) with
          | Some w2 => notifications parentAt o ts' w2
          | None => None
          end
      | None => None
      end
  end.

(** A burst of notifications, then quiet until [tend]. *)
Definition burst (parentAt : nat → option HTMLElement) (o : nat)
    (ts : list nat) (tend : nat) (w : World) : option World :=
  match notifications parentAt o ts w with
  | Some w1 => elapse (length (timers w1)) parentAt tend w1
  | None => None
  end.

(** ** Definitions used to state the properties *)

(** The scan read off the entries that remain, with running sum [s]. *)
Fixpoint greedy (widths : array number) (W : number) (s : number) : nat :=
  match widths with
  | [] => 0
  | e :: rest =>
      let w := or_zero e in
      if num_le (num_add s w) W then S (greedy rest W (num_add s w)) else 0
  end.

Definition nonneg (a : number) : Prop := num_le (Fin 0) a = true.


(** The number of leading entries of width zero. *)
Fixpoint leading_zero_widths (widths : array number) : nat :=
  match widths with
  | [] => 0
  | e :: rest =>
      if num_le (or_zero e) (Fin 0) then S (leading_zero_widths rest) else 0
  end.

(** The fit rule in the words of its edge case: a container of width 0
    (also one that is not available) or an empty sequence of widths gives
    a visible count of 0. *)
Definition zero_width_fits_nothing : Prop :=
  ∀ (c : OverflowWc) (parentElement : option HTMLElement),
    containerWidth_of parentElement = Fin 0 ∨ measuredWidths c = [] →
    visibleCount (computeVisibleForCurrentWidth parentElement c) = 0.

(** ** Invariants of the reachable states *)

(** The stored widths cover the visible count; and once the host has
    delivered the latest assignment of [items] to [updated], a component
    that is measured has one width per item. *)
Definition widths_inv (c : OverflowWc) : Prop :=
  visibleCount c ≤ length (measuredWidths c) ∧
  ("items" ∉ changedProperties c → measured c = true →
   length (measuredWidths c) = length (items c)).

(** Continuations that belong to firstUpdated. *)
Definition is_first_task (t : Task) : bool :=
  match t with
  | AwaitMeasure true | FirstUpdatedRest => true
  | _ => false
  end.

Fixpoint first_tasks (ts : list Task) : nat :=
  match ts with
  | [] => 0
  | t :: rest => (if is_first_task t then 1 else 0) + first_tasks rest
  end.

(** What is left of the one run of firstUpdated: the run itself while the
    first update has not happened, then its suspended continuations. *)
Definition first_updated_work (w : World) : nat :=
  (if hasUpdated (this w) then 0 else 1) + first_tasks (tasks w).

(** firstUpdated runs once, so at most one observer is ever made; the
    observers that observe are exactly the one the component holds. *)
Definition observer_inv (w : World) : Prop :=
  first_updated_work w + nextObserver w ≤ 1 ∧
  match resizeObserver (this w) with
  | Some o => 0 < nextObserver w ∧ ∃ target, observers w = [(o, target)]
  | None => observers w = []
  end.

(** At most one timeout is pending, and [resizeTimeout] holds its handle. *)
Definition timer_inv (w : World) : Prop :=
  0 < nextTimer w ∧
  (timers w = [] ∨
   ∃ handle deadline,
     timers w = [(handle, deadline)] ∧
     resizeTimeout (this w) = Some handle ∧ 0 < handle).

(** The state after a teardown that found an observer: nothing of
    firstUpdated is left to run, and nothing observes or is pending. *)
Definition torn_down (w : World) : Prop :=
  first_updated_work w = 0 ∧
  resizeObserver (this w) = None ∧
  observers w = [] ∧
  timers w = [].

(** The invariant of the data model in the words of the specification:
    in every reachable state a measured component has one width per item
    and a visible count of at most the number of items. *)
Definition measured_widths_always_aligned : Prop :=
  ∀ w, reachable w → measured (this w) = true →
       length (measuredWidths (this w)) = length (items (this w)) ∧
       visibleCount (this w) ≤ length (items (this w)).

(** Each notification after the first comes before the window of the one
    before it has elapsed. *)
Fixpoint within_window (t : nat) (ts : list nat) : Prop :=
  match ts with
  | [] => True
  | t' :: rest => t ≤ t' ∧ t' < t + 50 ∧ within_window t' rest
  end.

(** The time of the last notification of a burst that starts at [t]. *)
Definition last_time (t : nat) (ts : list nat) : nat := default t (last ts).

(** After a notification at time [t]: one timeout is pending, due at
    [t + 50], and observer [o] is still observing. *)
Definition armed (o t : nat) (w : World) : Prop :=
  timer_inv w ∧
  (∃ handle, timers w = [(handle, t + 50)]) ∧
  clock w = t ∧
  o ∈ (observers w).*1.

(** ** Concrete inputs of the examples *)

Definition px (z : Z) : number := Fin (inject_Z z).

Definition element_of_width (z : Z) : HTMLElement :=
  {| clientWidth := px z; boundingClientRectWidth := px z |}.

(** A component whose measured widths are [widths]. *)
Definition measured_component (widths : array number) : OverflowWc :=
  {| itemRefs := []; resizeObserver := None; resizeTimeout := None;
     measuredWidths := widths; measured := true; visibleCount := 0;
     items := []; renderer := None; hasUpdated := true;
     isUpdatePending := false; changedProperties := [] |}.

Definition labelled (l : string) : Item := {| label := Some l; _width := None |}.

Definition plain_renderer : Item → nat → TemplateResult :=
  λ item _, html (default "" (label item)).

(** Every span is laid out 40 wide. *)
Definition layout40 : nat → HTMLElement := λ _, element_of_width 40.

(** The component is set up with three items, attached, updated, and
    the measurement started by firstUpdated completes in a parent 200
    wide; then the caller assigns a single item. *)
Definition replace_items_trace : list Event :=
  [ SetRenderer (Some plain_renderer);
    SetItems [labelled "a"; labelled "b"; labelled "c"];
    Connect;
    PerformUpdate layout40;
    Resume 0 (Some (element_of_width 200));
    SetItems [labelled "a"] ].

(** The component is attached with two items and torn down after its
    first update, while the measurement started by firstUpdated is still
    waiting. *)
Definition teardown_during_measurement : list Event :=
  [ SetRenderer (Some plain_renderer);
    SetItems [labelled "a"; labelled "b"];
    Connect;
    PerformUpdate layout40;
    Disconnect ].

(** Three items measured at 40 each, two of them visible. *)
Definition two_visible : OverflowWc :=
  {| itemRefs := [Some createRef; Some createRef; Some createRef];
     resizeObserver := None; resizeTimeout := None;
     measuredWidths := [Some (px 40); Some (px 40); Some (px 40)];
     measured := true; visibleCount := 2;
     items := [labelled "a"; labelled "b"; labelled "c"];
     renderer := Some plain_renderer; hasUpdated := true;
     isUpdatePending := false; changedProperties := [] |}.

(** Two items in the hidden container; the span of the first is laid out
    40 wide, the Ref of the second holds no element. *)
Definition half_rendered : OverflowWc :=
  {| itemRefs := [Some {| value := Some (element_of_width 40) |};
                  Some createRef];
     resizeObserver := None; resizeTimeout := None;
     measuredWidths := []; measured := false; visibleCount := 0;
     items := [labelled "a"; labelled "b"];
     renderer := Some plain_renderer; hasUpdated := true;
     isUpdatePending := false; changedProperties := [] |}.

(** The parent is 200 wide, 150 from time 20 on and 120 from time 40 on. *)
Definition shrinking_parent (t : nat) : option HTMLElement :=
  Some (element_of_width (if t <? 20 then 200 else if t <? 40 then 150 else 120)).

(** A component that is measured, attached and observed by observer 0. *)
Definition observed_world : World :=
  {| this :=
       with_resizeObserver (Some 0)
         (measured_component [Some (px 50); Some (px 30); Some (px 40)]);
     connected := true; updatingEnabled := true; tasks := []; clock := 0;
     timers := []; nextTimer := 1; observers := [(0, ParentElement)];
     nextObserver := 1; fits := [] |}.


(** ** Further definitions used to state properties *)

(** The width the scan takes for an entry of the array. *)
Definition width_of (e : option number) : number := or_zero e.

(** Entry by entry, the widths of [narrow] are non-negative and at most
    those of [wide]. *)
Definition narrower (narrow wide : array number) : Prop :=
  Forall2 (λ e e', nonneg (width_of e) ∧ num_le (width_of e) (width_of e') = true)
    narrow wide.

(** Before the first update nothing has been measured, rendered into a
    Ref, suspended, observed or scheduled. *)
Definition fresh_inv (w : World) : Prop :=
  hasUpdated (this w) = false →
  itemRefs (this w) = [] ∧ measured (this w) = false ∧
  measuredWidths (this w) = [] ∧ visibleCount (this w) = 0 ∧
  tasks w = [] ∧ timers w = [] ∧ observers w = [].

(** No Ref of the array holds an element. *)
Definition refs_empty (refs : array Ref) : Prop :=
  ∀ i r, arr_get refs i = Some r → value r = None.

(** Each notification after the first comes when the window of the one
    before it has elapsed. *)
Fixpoint spaced (t : nat) (ts : list nat) : Prop :=
  match ts with
  | [] => True
  | t' :: rest => t + 50 ≤ t' ∧ spaced t' rest
  end.

(* ================================================================== *)
(** * Part II: properties                                              *)
(* ================================================================== *)

(** ** Numbers *)

Arguments or_zero : simpl never.

Lemma Qle_bool_false (p q : Q) : Qle_bool p q = false ↔ ¬ (p <= q)%Q.
Proof.
  rewrite <- Qle_bool_iff. destruct (Qle_bool p q); split; intros; congruence.
Qed.

Lemma Qeq_bool_false (p q : Q) : Qeq_bool p q = false ↔ ¬ (p == q)%Q.
Proof.
  rewrite <- Qeq_bool_iff. destruct (Qeq_bool p q); split; intros; congruence.
Qed.

Ltac q_prop :=
  repeat match goal with
    | H : Qle_bool _ _ = true |- _ => apply Qle_bool_iff in H
    | H : Qle_bool _ _ = false |- _ => apply Qle_bool_false in H
    | H : Qeq_bool _ _ = true |- _ => apply Qeq_bool_iff in H
    | H : Qeq_bool _ _ = false |- _ => apply Qeq_bool_false in H
    | H : negb _ = true |- _ => apply negb_true_iff in H
    | H : negb _ = false |- _ => apply negb_false_iff in H
    | |- Qle_bool _ _ = true => apply Qle_bool_iff
    | |- Qle_bool _ _ = false => apply Qle_bool_false
    end.

Ltac num_crush :=
  unfold nonneg, or_zero, truthy in *;
  repeat match goal with n : number |- _ => destruct n end;
  simpl in *;
  repeat match goal with
    | H : context [if negb (Qeq_bool ?q 0) then _ else _] |- _ =>
        destruct (Qeq_bool q 0) eqn:?; simpl in H
    | |- context [if negb (Qeq_bool ?q 0) then _ else _] =>
        destruct (Qeq_bool q 0) eqn:?; simpl
    end;
  try congruence; try tauto; q_prop; try tauto; try lra.

Lemma num_eq_refl a : num_eq a a.
Proof. num_crush. Qed.

Lemma num_eq_sym a b : num_eq a b → num_eq b a.
Proof. intros; num_crush. Qed.

Lemma num_eq_trans a b c : num_eq a b → num_eq b c → num_eq a c.
Proof. intros; num_crush. Qed.

Lemma num_add_proper a a' b b' :
  num_eq a a' → num_eq b b' → num_eq (num_add a b) (num_add a' b').
Proof. intros; num_crush. Qed.

Lemma num_le_proper a a' b b' :
  num_eq a a' → num_eq b b' → num_le a b = num_le a' b'.
Proof.
  intros; destruct (num_le a' b') eqn:E; num_crush.
Qed.

Lemma num_le_trans a b c :
  num_le a b = true → num_le b c = true → num_le a c = true.
Proof. intros; num_crush. Qed.




Lemma or_zero_idem e : or_zero (Some (or_zero e)) = or_zero e.
Proof.
  destruct e as [n|]; [|reflexivity].
  unfold or_zero. destruct (truthy n) eqn:E; [rewrite E; reflexivity|reflexivity].
Qed.

Lemma or_zero_falsy e :
  e = None ∨ e = Some NaN ∨ (∃ q, e = Some (Fin q) ∧ (q == 0)%Q) →
  or_zero e = Fin 0.
Proof.
  intros [->|[->|(q & -> & Hq)]]; try reflexivity.
  unfold or_zero, truthy. apply Qeq_bool_iff in Hq. rewrite Hq. reflexivity.
Qed.

(** ** The fit loop *)

Lemma arr_get_lookup {A} (a : array A) i e : a !! i = Some e → arr_get a i = e.
Proof. unfold arr_get. intros ->. reflexivity. Qed.

(** The loop counts what [greedy] counts on the entries from [i] on, once
    the fuel covers them. *)
Lemma fit_loop_count fuel : ∀ widths W i st,
  length widths - i ≤ fuel →
  count (fit_loop fuel widths W i st) = count st + greedy (drop i widths) W (sum st).
Proof.
  induction fuel as [|fuel IH]; intros widths W i st Hfuel; simpl.
  - rewrite drop_ge by lia. simpl. lia.
  - destruct (Nat.ltb_spec i (length widths)) as [Hi|Hi].
    + destruct (lookup_lt_is_Some_2 widths i Hi) as [e He].
      rewrite (drop_S _ _ _ He), (arr_get_lookup _ _ _ He). simpl.
      destruct (num_le (num_add (sum st) (or_zero e)) W).
      * rewrite IH by lia. simpl. lia.
      * simpl. lia.
    + rewrite drop_ge by lia. simpl. lia.
Qed.

(** More fuel than entries changes nothing: the loop leaves through its
    own exit, never because the fuel ran out. *)
Lemma fit_loop_fuel fuel : ∀ widths W i st,
  length widths - i ≤ fuel →
  fit_loop fuel widths W i st = fit_loop (length widths - i) widths W i st.
Proof.
  induction fuel as [|fuel IH]; intros widths W i st Hfuel.
  - replace (length widths - i) with 0 by lia. reflexivity.
  - destruct (Nat.ltb_spec i (length widths)) as [Hi|Hi].
    + replace (length widths - i) with (S (length widths - S i)) by lia.
      simpl. destruct (Nat.ltb_spec i (length widths)); [|lia].
      destruct (num_le _ _); [|reflexivity].
      apply IH. lia.
    + replace (length widths - i) with 0 by lia. simpl.
      destruct (Nat.ltb_spec i (length widths)); [lia|reflexivity].
Qed.

Lemma fit_loop_reads fuel : ∀ widths W i st,
  Forall (λ j, j < length widths) (reads st) →
  Forall (λ j, j < length widths) (reads (fit_loop fuel widths W i st)).
Proof.
  induction fuel as [|fuel IH]; intros widths W i st Hst; simpl; [done|].
  destruct (Nat.ltb_spec i (length widths)) as [Hi|Hi]; [|done].
  destruct (num_le _ _).
  - apply IH. simpl. apply Forall_app. split; [done|]. by repeat constructor.
  - simpl. apply Forall_app. split; [done|]. by repeat constructor.
Qed.

(** The loop sees an entry only through [or_zero]. *)
Lemma fit_loop_coerced fuel : ∀ widths W i st,
  fit_loop fuel ((λ e, Some (or_zero e)) <$> widths) W i st
  = fit_loop fuel widths W i st.
Proof.
  induction fuel as [|fuel IH]; intros widths W i st; simpl; [done|].
  rewrite length_fmap.
  destruct (Nat.ltb_spec i (length widths)) as [Hi|Hi]; [|done].
  destruct (lookup_lt_is_Some_2 widths i Hi) as [e He].
  rewrite (arr_get_lookup _ _ _ He).
  assert (He' : ((λ e, Some (or_zero e)) <$> widths) !! i
                = Some (Some (or_zero e)))
    by (rewrite list_lookup_fmap, He; reflexivity).
  rewrite (arr_get_lookup _ _ _ He').
  rewrite or_zero_idem.
  destruct (num_le _ _); [apply IH|reflexivity].
Qed.

Lemma fit_count_greedy widths W : fit_count widths W = greedy widths W (Fin 0).
Proof.
  unfold fit_count, fit_scan. rewrite fit_loop_count by lia.
  rewrite drop_0. reflexivity.
Qed.

Lemma greedy_le_length widths : ∀ W s, greedy widths W s ≤ length widths.
Proof.
  induction widths as [|e rest IH]; intros W s; simpl; [lia|].
  destruct (num_le _ _); [|lia]. specialize (IH W (num_add s (or_zero e))). lia.
Qed.

Lemma fit_count_le_length widths W : fit_count widths W ≤ length widths.
Proof. rewrite fit_count_greedy. apply greedy_le_length. Qed.

Lemma visibleCount_computeVisible parent c :
  visibleCount (computeVisibleForCurrentWidth parent c)
  = fit_count (measuredWidths c) (containerWidth_of parent).
Proof.
  unfold computeVisibleForCurrentWidth, set_visibleCount.
  destruct (Nat.eqb_spec (fit_count (measuredWidths c) (containerWidth_of parent))
              (visibleCount c)) as [E|E]; simpl; [congruence|reflexivity].
Qed.


(** ** Sums of non-negative widths *)

Lemma foldl_add_proper (ws : list number) : ∀ s s',
  num_eq s s' → num_eq (foldl num_add s ws) (foldl num_add s' ws).
Proof.
  induction ws as [|w ws IH]; intros s s' Hs; simpl; [done|].
  apply IH, num_add_proper; [done|apply num_eq_refl].
Qed.



Lemma greedy_mono widths : ∀ W1 W2 s,
  num_le W1 W2 = true → greedy widths W1 s ≤ greedy widths W2 s.
Proof.
  induction widths as [|e rest IH]; intros W1 W2 s HW; simpl; [lia|].
  destruct (num_le (num_add s (or_zero e)) W1) eqn:H1; [|lia].
  rewrite (num_le_trans _ _ _ H1 HW).
  apply le_n_S, IH, HW.
Qed.

(** With a container of width zero and non-negative widths, the scan
    admits exactly the leading entries of width zero. *)
Lemma greedy_zero_container widths : ∀ s,
  num_eq s (Fin 0) →
  Forall (λ e, nonneg (or_zero e)) widths →
  greedy widths (Fin 0) s = leading_zero_widths widths.
Proof.
  induction widths as [|e rest IH]; intros s Hs Hws; simpl; [done|].
  inversion Hws as [|? ? He Hrest]; subst.
  assert (Heq : num_eq (num_add s (or_zero e)) (or_zero e)).
  { clear -Hs. destruct (or_zero e); num_crush. }
  rewrite (num_le_proper _ _ (Fin 0) (Fin 0) Heq (num_eq_refl _)).
  destruct (num_le (or_zero e) (Fin 0)) eqn:Hle; [|done].
  f_equal. apply IH; [|done].
  eapply num_eq_trans; [exact Heq|].
  clear -He Hle. destruct (or_zero e); num_crush.
Qed.

(** ** The fit computation: C1, C2, C7, C9 *)



(** C7. For fixed widths, a container width W1 <= W2 never gives a larger
    visible count than W2: widening never hides an item, narrowing never
    shows one more.  (No assumption on the widths is needed.) *)
Theorem C7_fit_monotone_in_width
    (c : OverflowWc) (parent1 parent2 : option HTMLElement) :
  num_le (containerWidth_of parent1) (containerWidth_of parent2) = true →
  visibleCount (computeVisibleForCurrentWidth parent1 c)
  ≤ visibleCount (computeVisibleForCurrentWidth parent2 c).
Proof.
  intros HW. rewrite !visibleCount_computeVisible, !fit_count_greedy.
  by apply greedy_mono.
Qed.

Lemma C7_fit_monotone_in_width_witness :
  visibleCount
    (computeVisibleForCurrentWidth (Some (element_of_width 80))
       (measured_component [Some (px 50); Some (px 30); Some (px 40)]))
  ≤ visibleCount
      (computeVisibleForCurrentWidth (Some (element_of_width 120))
         (measured_component [Some (px 50); Some (px 30); Some (px 40)])).
Proof.
  apply (C7_fit_monotone_in_width
           (measured_component [Some (px 50); Some (px 30); Some (px 40)])
           (Some (element_of_width 80)) (Some (element_of_width 120))).
  reflexivity.
Defined.

(** C9. The fit computation is defined on every measuredWidths array and
    every container width: a hole, an undefined, a NaN or a zero entry
    counts as width 0 in the admission test (the scan on the array equals
    the scan on the array with every entry replaced by its coerced
    width), every index read is inside the array, the loop ends within
    length-many iterations whatever the contents, and the count never
    exceeds the length. *)
Theorem C9_fit_total_over_arrays
    (c : OverflowWc) (parentElement : option HTMLElement) :
  let widths := measuredWidths c in
  let W := containerWidth_of parentElement in
  (∀ e, e = None ∨ e = Some NaN ∨ (∃ q, e = Some (Fin q) ∧ (q == 0)%Q) →
        or_zero e = Fin 0) ∧
  fit_scan ((λ e, Some (or_zero e)) <$> widths) W = fit_scan widths W ∧
  Forall (λ i, i < length widths) (reads (fit_scan widths W)) ∧
  (∀ fuel, length widths ≤ fuel →
           fit_loop fuel widths W 0 {| sum := Fin 0; count := 0; reads := [] |}
           = fit_scan widths W) ∧
  visibleCount (computeVisibleForCurrentWidth parentElement c)
  = greedy widths W (Fin 0) ∧
  visibleCount (computeVisibleForCurrentWidth parentElement c) ≤ length widths.
Proof.
  intros widths W. repeat split.
  - apply or_zero_falsy.
  - unfold fit_scan. rewrite length_fmap. apply fit_loop_coerced.
  - apply fit_loop_reads. constructor.
  - intros fuel Hfuel. unfold fit_scan.
    rewrite (fit_loop_fuel fuel) by lia.
    rewrite (fit_loop_fuel (length widths)) by lia. reflexivity.
  - rewrite visibleCount_computeVisible. apply fit_count_greedy.
  - rewrite visibleCount_computeVisible. apply fit_count_le_length.
Qed.

(** C2, as the code has it.  With an empty sequence of widths the visible
    count is 0.  With a container of width 0 (also when the parent is not
    available and the width is read as 0) and non-negative widths, the
    visible count is the number of leading items of width 0: it is 0 as
    soon as the first item has a positive width, and zero-width items are
    admitted because 0 + 0 <= 0. *)
Theorem C2_zero_width_container
    (c : OverflowWc) (parentElement : option HTMLElement) :
  measuredWidths c = [] ∨
  (containerWidth_of parentElement = Fin 0 ∧
   Forall (λ e, nonneg (or_zero e)) (measuredWidths c)) →
  visibleCount (computeVisibleForCurrentWidth parentElement c)
  = leading_zero_widths (measuredWidths c).
Proof.
  intros H. rewrite visibleCount_computeVisible, fit_count_greedy.
  destruct H as [->|[-> Hws]]; [reflexivity|].
  apply greedy_zero_container; [apply num_eq_refl|done].
Qed.

Lemma C2_zero_width_container_witness :
  visibleCount
    (computeVisibleForCurrentWidth None
       (measured_component [Some (px 0); Some (px 0); Some (px 5)]))
  = 2.
Proof.
  apply (C2_zero_width_container
           (measured_component [Some (px 0); Some (px 0); Some (px 5)]) None).
  right. split; [reflexivity|]. repeat constructor.
Defined.

(** C2 as stated fails: a single item of width 0 in a container whose
    width is not available is counted as visible. *)
Lemma C2_counterexample : ¬ zero_width_fits_nothing.
Proof.
  intros H.
  specialize (H (measured_component [Some (px 0)]) None (or_introl eq_refl)).
  vm_compute in H. discriminate H.
Qed.

(** ** What the setters leave alone *)

Ltac unfold_setters :=
  unfold computeVisibleForCurrentWidth, set_visibleCount, set_measured,
    set_measuredWidths, set_items, set_renderer, requestUpdate, markUpdated,
    ensureRefs, commit, with_itemRefs, with_resizeObserver,
    with_resizeTimeout, with_hasUpdated in *.

Ltac setters := intros; unfold_setters; repeat case_match; simpl in *; try done.

Lemma elem_of_requestUpdate name' name c :
  name' ∈ changedProperties (requestUpdate name c)
  ↔ name' = name ∨ name' ∈ changedProperties c.
Proof.
  unfold requestUpdate; simpl. case_bool_decide as H.
  - split; [by right|]. intros [->|?]; done.
  - rewrite elem_of_app, list_elem_of_singleton. tauto.
Qed.

Lemma computeVisible_measuredWidths p c :
  measuredWidths (computeVisibleForCurrentWidth p c) = measuredWidths c.
Proof. setters. Qed.

Lemma computeVisible_measured p c :
  measured (computeVisibleForCurrentWidth p c) = measured c.
Proof. setters. Qed.

Lemma computeVisible_items p c :
  items (computeVisibleForCurrentWidth p c) = items c.
Proof. setters. Qed.

Lemma computeVisible_resizeObserver p c :
  resizeObserver (computeVisibleForCurrentWidth p c) = resizeObserver c.
Proof. setters. Qed.

Lemma computeVisible_resizeTimeout p c :
  resizeTimeout (computeVisibleForCurrentWidth p c) = resizeTimeout c.
Proof. setters. Qed.

Lemma computeVisible_hasUpdated p c :
  hasUpdated (computeVisibleForCurrentWidth p c) = hasUpdated c.
Proof. setters. Qed.

Lemma computeVisible_items_changed p c :
  "items" ∈ changedProperties (computeVisibleForCurrentWidth p c)
  ↔ "items" ∈ changedProperties c.
Proof.
  unfold computeVisibleForCurrentWidth, set_visibleCount.
  repeat case_match; try done.
  rewrite elem_of_requestUpdate. simpl. split; [|tauto].
  intros [?|?]; done.
Qed.

Lemma set_measured_measured v c : measured (set_measured v c) = v.
Proof.
  unfold set_measured. destruct (Bool.eqb_spec v (measured c)); done.
Qed.

Lemma set_measured_measuredWidths v c :
  measuredWidths (set_measured v c) = measuredWidths c.
Proof. setters. Qed.

Lemma set_measured_items v c : items (set_measured v c) = items c.
Proof. setters. Qed.

Lemma set_measured_visibleCount v c :
  visibleCount (set_measured v c) = visibleCount c.
Proof. setters. Qed.

Lemma set_measured_items_changed v c :
  "items" ∈ changedProperties (set_measured v c)
  ↔ "items" ∈ changedProperties c.
Proof.
  unfold set_measured. case_match; [done|].
  rewrite elem_of_requestUpdate. simpl. split; [|tauto].
  intros [?|?]; done.
Qed.

(** ** The measurement pass: C8 *)

(** The width recorded for position [i]. *)
Lemma measure_widths_upto (refs : array Ref) (n : nat) :
  let widths :=
    foldl (λ widths i,
             let el := arr_get refs i ≫= value in
             arr_set widths i
               (match el with
                | Some e => boundingClientRectWidth e
                | None => Fin 0
                end))
      [] (seq 0 n) in
  length widths = n ∧
  ∀ i, i < n →
       widths !! i
       = Some (Some (match arr_get refs i ≫= value with
                     | Some e => boundingClientRectWidth e
                     | None => Fin 0
                     end)).
Proof.
  cbv zeta. induction n as [|n [IHlen IH]].
  - split; [done|]. intros; lia.
  - rewrite seq_S, foldl_app. cbn [foldl Nat.add].
    match goal with
    | |- context [foldl ?f [] (seq 0 n)] =>
        set (widths := foldl f [] (seq 0 n)) in *
    end.
    unfold arr_set. rewrite IHlen.
    destruct (decide (n < n)) as [?|_]; [lia|].
    rewrite Nat.sub_diag. simpl. split.
    + rewrite length_app. simpl. lia.
    + intros i Hi. destruct (decide (i = n)) as [->|Hne].
      * rewrite lookup_app_r by lia. rewrite IHlen, Nat.sub_diag. reflexivity.
      * rewrite lookup_app_l by lia. apply IH. lia.
Qed.

Lemma measure_widths_spec (c : OverflowWc) :
  length (measure_widths c) = length (items c) ∧
  ∀ i, i < length (items c) →
       measure_widths c !! i
       = Some (Some (match arr_get (itemRefs c) i ≫= value with
                     | Some e => boundingClientRectWidth e
                     | None => Fin 0
                     end)).
Proof. exact (measure_widths_upto (itemRefs c) (length (items c))). Qed.

(** C8. The measurement pass is a total function of the component and the
    DOM it reads: nothing in it can throw for a Ref that is missing or
    whose element is absent.  It records width 0 at every index whose
    element is absent and the element's width otherwise, and the recorded
    widths have one entry per item, at the item's index. *)
Theorem C8_measurement_aligned_and_total
    (c : OverflowWc) (parentElement : option HTMLElement) :
  let c' := measureAllItems_resumed parentElement c in
  measured c' = true ∧
  length (measuredWidths c') = length (items c) ∧
  (∀ i, i < length (items c) →
        arr_get (itemRefs c) i ≫= value = None →
        arr_get (measuredWidths c') i = Some (Fin 0)) ∧
  (∀ i el, i < length (items c) →
           arr_get (itemRefs c) i ≫= value = Some el →
           arr_get (measuredWidths c') i = Some (boundingClientRectWidth el)).
Proof.
  intros c'. unfold c', measureAllItems_resumed.
  rewrite computeVisible_measured, set_measured_measured.
  rewrite computeVisible_measuredWidths, set_measured_measuredWidths.
  change (measuredWidths (set_measuredWidths (measure_widths c) c))
    with (measure_widths c).
  destruct (measure_widths_spec c) as [Hlen Hget].
  repeat split; try done.
  - intros i Hi Hel. unfold arr_get at 1. rewrite (Hget i Hi), Hel. reflexivity.
  - intros i el Hi Hel. unfold arr_get at 1. rewrite (Hget i Hi), Hel. reflexivity.
Qed.

(** The second item has no element: its width is recorded as 0. *)
Lemma C8_measurement_aligned_and_total_witness :
  arr_get (measuredWidths (measureAllItems_resumed None half_rendered)) 1
  = Some (Fin 0).
Proof.
  refine (proj1 (proj2 (proj2 (C8_measurement_aligned_and_total
                                 half_rendered None))) 1 _ _).
  - simpl. lia.
  - reflexivity.
Defined.

(** ** The render dispatch: C6 *)

(** C6. render is a four-way case split on the state.  Without a renderer
    it returns the fixed placeholder.  With a renderer and measured false
    it returns the hidden container with one span per item of the full
    sequence, in order, and nothing else.  With measured true and
    visibleCount 0 it returns nothing.  With measured true and
    visibleCount > 0 it returns spans for exactly items[0..visibleCount),
    in order, the renderer being called with each item and its index in
    the full sequence. *)
Theorem C6_render_dispatch (c : OverflowWc) :
  (renderer c = None → render c = NoRendererDiv) ∧
  (∀ r, renderer c = Some r → measured c = false →
     ∃ spans, render c = HiddenMeasure spans ∧
       length spans = length (items c) ∧
       ∀ i item, items c !! i = Some item →
                 snd <$> spans !! i = Some (r item i)) ∧
  (∀ r, renderer c = Some r → measured c = true → visibleCount c = 0 →
     render c = nothing) ∧
  (∀ r, renderer c = Some r → measured c = true → 0 < visibleCount c →
     ∃ spans, render c = Spans spans ∧
       length spans = visibleCount c `min` length (items c) ∧
       (∀ i item, i < visibleCount c → items c !! i = Some item →
                  spans !! i = Some (r item i)) ∧
       (∀ i, visibleCount c ≤ i → spans !! i = None)).
Proof.
  unfold render. repeat split.
  - intros ->. reflexivity.
  - intros r -> ->. simpl. eexists. split; [reflexivity|].
    split; [by rewrite length_imap|].
    intros i item Hi. rewrite list_lookup_imap, Hi. reflexivity.
  - intros r -> -> ->. reflexivity.
  - intros r -> -> Hpos. simpl.
    destruct (Nat.eqb_spec (visibleCount c) 0) as [?|_]; [lia|].
    eexists. split; [reflexivity|].
    split; [by rewrite length_imap, length_take|].
    split.
    + intros i item Hi Hitem.
      rewrite list_lookup_imap, lookup_take_lt, Hitem by done. reflexivity.
    + intros i Hi. rewrite list_lookup_imap, lookup_take_ge by done.
      reflexivity.
Qed.

(** Two of three items visible: two spans. *)
Lemma C6_render_dispatch_witness :
  ∃ spans, render two_visible = Spans spans ∧ length spans = 2.
Proof.
  destruct (C6_render_dispatch two_visible) as (_ & _ & _ & H).
  destruct (H plain_renderer eq_refl eq_refl) as (spans & Hr & Hlen & _).
  - simpl. lia.
  - exists spans. split; [exact Hr|exact Hlen].
Defined.

(** ** Steps of the host *)

Lemma set_measured_resizeObserver v c :
  resizeObserver (set_measured v c) = resizeObserver c.
Proof. setters. Qed.

Lemma set_measured_resizeTimeout v c :
  resizeTimeout (set_measured v c) = resizeTimeout c.
Proof. setters. Qed.

Lemma set_measured_hasUpdated v c :
  hasUpdated (set_measured v c) = hasUpdated c.
Proof. setters. Qed.

Lemma items_changed_set_items v c : "items" ∈ changedProperties (set_items v c).
Proof. unfold set_items. rewrite elem_of_requestUpdate. by left. Qed.

Lemma items_changed_set_items_iff v c :
  "items" ∈ changedProperties (set_items v c) ↔ True.
Proof. split; [done|]. intros _. apply items_changed_set_items. Qed.

Lemma items_changed_set_renderer v c :
  "items" ∈ changedProperties (set_renderer v c)
  ↔ "items" ∈ changedProperties c.
Proof.
  unfold set_renderer. rewrite elem_of_requestUpdate. simpl.
  split; [|tauto]. intros [?|?]; done.
Qed.

Lemma items_changed_set_measuredWidths v c :
  "items" ∈ changedProperties (set_measuredWidths v c)
  ↔ "items" ∈ changedProperties c.
Proof.
  unfold set_measuredWidths. rewrite elem_of_requestUpdate. simpl.
  split; [|tauto]. intros [?|?]; done.
Qed.

(** Reduce the projections of the host operations that only rebuild the
    record, and of the component updates that only replace a field. *)
Ltac world_proj :=
  cbn [this connected updatingEnabled tasks clock timers nextTimer observers
       nextObserver fits with_this with_connected with_tasks with_clock
       with_timers with_observers fit setTimeout clearTimeout
       newResizeObserver disconnectObserver firstUpdated measureAllItems
       fst snd] in *.

Ltac comp_proj :=
  repeat (progress (
    rewrite ?computeVisible_measuredWidths, ?computeVisible_measured,
      ?computeVisible_items, ?computeVisible_resizeObserver,
      ?computeVisible_resizeTimeout, ?computeVisible_hasUpdated,
      ?computeVisible_items_changed, ?visibleCount_computeVisible,
      ?set_measured_measured, ?set_measured_measuredWidths,
      ?set_measured_items, ?set_measured_visibleCount,
      ?set_measured_items_changed, ?set_measured_resizeObserver,
      ?set_measured_resizeTimeout, ?set_measured_hasUpdated,
      ?items_changed_set_renderer, ?items_changed_set_measuredWidths,
      ?items_changed_set_items_iff in *;
    cbn [itemRefs resizeObserver resizeTimeout measuredWidths measured
         visibleCount items renderer hasUpdated isUpdatePending
         changedProperties with_itemRefs with_resizeObserver with_resizeTimeout
         with_hasUpdated markUpdated ensureRefs commit set_items set_renderer
         set_measuredWidths requestUpdate] in *)).

Ltac unfold_step :=
  unfold step, resume, performUpdate, updated, firstUpdated_rest,
    measureAllItems_rest, disconnectedCallback, resize_timer_callback,
    onContainerResize, newResizeObserver, setTimeout in *;
  cbv beta iota zeta in *.

Lemma step_widths_inv w e w' :
  widths_inv (this w) → step w e = Some w' → widths_inv (this w').
Proof.
  intros [H1 H2] Hstep. unfold widths_inv.
  destruct e; unfold_step; repeat case_match; simplify_eq; world_proj.
  all: comp_proj; split;
    [ first [exact H1 | apply fit_count_le_length]
    | first [ exact H2
            | intros _ Hm; discriminate Hm
            | intros _ _; apply measure_widths_spec
            | intros _; apply H2; eapply bool_decide_eq_false_1; eassumption
            | intros Hn; by destruct Hn ] ].
Qed.

Lemma first_tasks_app ts1 ts2 :
  first_tasks (ts1 ++ ts2) = first_tasks ts1 + first_tasks ts2.
Proof. induction ts1 as [|t ts1 IH]; simpl; [done|]. rewrite IH. lia. Qed.

Lemma first_tasks_delete ts : ∀ n t,
  ts !! n = Some t →
  first_tasks ts
  = (if is_first_task t then 1 else 0) + first_tasks (delete n ts).
Proof.
  induction ts as [|t' ts IH]; intros [|n] t Ht; simplify_eq/=; [done|].
  rewrite (IH n t Ht). lia.
Qed.

Lemma filter_other_singleton {A} (o : nat) (x : A) :
  filter (λ ob : nat * A, ob.1 ≠ o) [(o, x)] = [].
Proof. cbn. case_decide; [done|reflexivity]. Qed.

(** Reduce a step to the cases of its guards, with the state after the
    step written out. *)
Ltac step_cases :=
  unfold_step; repeat case_match; simplify_eq.

Ltac use_guards :=
  repeat match goal with
    | H : resizeObserver (this _) = _ |- _ => rewrite H in *
    | H : resizeTimeout (this _) = _ |- _ => rewrite H in *
    | H : negb (hasUpdated (this _)) = true |- _ =>
        apply negb_true_iff in H; rewrite H in *
    | H : negb (hasUpdated (this _)) = false |- _ =>
        apply negb_false_iff in H; rewrite H in *
    end.

Lemma step_observer_inv w e w' :
  observer_inv w → step w e = Some w' → observer_inv w'.
Proof.
  intros Hinv Hstep.
  destruct e; step_cases.
  all: unfold observer_inv, first_updated_work in *; world_proj; comp_proj.
  all: destruct Hinv as [Hwork Hobs].
  all: rewrite ?first_tasks_app; simpl first_tasks.
  all: try match goal with
         | H : tasks _ !! _ = Some _ |- _ =>
             pose proof (first_tasks_delete _ _ _ H) as Hdel; simpl in Hdel
         end.
  all: use_guards.
  all: try (split; [lia|done]).
  all: try match type of Hobs with
         | _ ∧ _ =>
             destruct Hobs as [Hpos [target ->]];
             rewrite filter_other_singleton; split; [lia|done]
         end.
  all: rewrite Hobs; split; [lia|]; split; [lia|]; eexists; reflexivity.
Qed.

Lemma step_timer_inv w e w' :
  timer_inv w → step w e = Some w' → timer_inv w'.
Proof.
  intros Hinv Hstep.
  destruct e; step_cases.
  all: unfold timer_inv in *; world_proj; comp_proj.
  all: destruct Hinv as [Hnext Htimers].
  all: use_guards.
  all: try (split; [lia|done]).
  all: split; [lia|].
  all: repeat match goal with
         | H : (_ =? 0) = true |- _ => apply Nat.eqb_eq in H
         | H : (_ =? 0) = false |- _ => apply Nat.eqb_neq in H
         end.
  all: destruct Htimers as [Ht|(h & d & Ht & Hh & Hpos)]; simplify_eq;
    try lia; rewrite ?Ht, ?filter_other_singleton; simpl.
  all: first [ by left
             | left; congruence
             | exfalso; congruence
             | right; eexists _, _; split; [reflexivity|]; split; [done|lia] ].
Qed.

(** ** Reachable states *)

Lemma run_app w evs1 : ∀ evs2,
  run w (evs1 ++ evs2)
  = match run w evs1 with
    | Some w1 => run w1 evs2
    | None => None
    end.
Proof.
  revert w. induction evs1 as [|e evs1 IH]; intros w evs2; simpl; [done|].
  destruct (step w e); [apply IH|done].
Qed.

Lemma run_preserves (P : World → Prop) :
  (∀ w e w', P w → step w e = Some w' → P w') →
  ∀ evs w w', P w → run w evs = Some w' → P w'.
Proof.
  intros Hstep. induction evs as [|e evs IH]; intros w w' HP Hrun; simpl in Hrun.
  - by simplify_eq.
  - destruct (step w e) as [w1|] eqn:He; [|done].
    eapply IH; [|done]. eapply Hstep; done.
Qed.

Lemma reachable_widths_inv w : reachable w → widths_inv (this w).
Proof.
  intros [evs Hrun].
  apply (run_preserves (λ w, widths_inv (this w)) step_widths_inv evs initial);
    [|done].
  split; [done|]. intros _ Hm. discriminate Hm.
Qed.

Lemma reachable_observer_inv w : reachable w → observer_inv w.
Proof.
  intros [evs Hrun].
  apply (run_preserves _ step_observer_inv evs initial); [|done].
  split; [done|reflexivity].
Qed.

Lemma reachable_timer_inv w : reachable w → timer_inv w.
Proof.
  intros [evs Hrun].
  apply (run_preserves _ step_timer_inv evs initial); [|done].
  split; [simpl; lia|by left].
Qed.

(** ** The widths and the visible count: C4 *)

(** C4, as the code has it.  In every reachable state visibleCount is at
    most the number of stored widths.  Whenever measured is true and the
    host has delivered the latest assignment of items to the updated hook
    ("items" is not among the changed properties awaiting an update),
    measuredWidths has exactly items.length entries and visibleCount lies
    in [0, items.length].  Every completed measurement pass re-establishes
    all of this at once.  Between an assignment to items and the update
    that follows it, the widths and the count of the previous sequence
    stay in place. *)
Theorem C4_widths_aligned_once_updated (w : World) :
  reachable w →
  visibleCount (this w) ≤ length (measuredWidths (this w)) ∧
  ("items" ∉ changedProperties (this w) → measured (this w) = true →
   length (measuredWidths (this w)) = length (items (this w)) ∧
   visibleCount (this w) ≤ length (items (this w))) ∧
  (∀ n b parentElement w',
     tasks w !! n = Some (AwaitMeasure b) →
     step w (Resume n parentElement) = Some w' →
     measured (this w') = true ∧
     length (measuredWidths (this w')) = length (items (this w')) ∧
     visibleCount (this w') ≤ length (items (this w'))).
Proof.
  intros Hw. destruct (reachable_widths_inv w Hw) as [H1 H2].
  split; [exact H1|]. split.
  - intros Hitems Hm. rewrite <- (H2 Hitems Hm). done.
  - intros n b p w' Hn Hstep. unfold step in Hstep. rewrite Hn in Hstep.
    simplify_eq. unfold resume, measureAllItems_rest.
    assert (Hlen : length (measure_widths (this w)) = length (items (this w)))
      by apply measure_widths_spec.
    destruct b; world_proj; comp_proj; rewrite <- Hlen;
      (split; [done|]; split; [done|]; apply fit_count_le_length).
Qed.

Lemma C4_widths_aligned_once_updated_witness :
  ∃ w, run initial (take 5 replace_items_trace) = Some w ∧
       visibleCount (this w) ≤ length (measuredWidths (this w)).
Proof.
  eexists. split; [vm_compute; reflexivity|].
  refine (proj1 (C4_widths_aligned_once_updated _ _)).
  exists (take 5 replace_items_trace). vm_compute. reflexivity.
Defined.

(** C4 as stated fails in the state right after the item sequence is
    replaced: measured is still true, three widths are stored for one
    item, and visibleCount is 3. *)
Lemma C4_counterexample : ¬ measured_widths_always_aligned.
Proof.
  intros H.
  destruct (run initial replace_items_trace) as [w|] eqn:Hrun;
    [|vm_compute in Hrun; discriminate Hrun].
  specialize (H w (ex_intro _ replace_items_trace Hrun)).
  vm_compute in Hrun. simplify_eq. vm_compute in H.
  destruct (H eq_refl) as [Hlen _]. discriminate Hlen.
Qed.

(** ** Teardown and the resize observer: C10, C3 *)

(** Teardown cancels the pending timeout and disconnects the observer the
    component holds. *)
Lemma disconnect_cancels w w1 :
  observer_inv w → timer_inv w → step w Disconnect = Some w1 →
  timers w1 = [] ∧ observers w1 = [] ∧ resizeObserver (this w1) = None ∧
  tasks w1 = tasks w ∧ hasUpdated (this w1) = hasUpdated (this w) ∧
  nextObserver w1 = nextObserver w.
Proof.
  intros [_ Hobs] [_ Htimers] Hstep.
  step_cases; world_proj; comp_proj; use_guards.
  all: repeat match goal with
         | H : (_ =? 0) = true |- _ => apply Nat.eqb_eq in H
         | H : (_ =? 0) = false |- _ => apply Nat.eqb_neq in H
         end.
  all: try match type of Hobs with
         | _ ∧ _ => destruct Hobs as [_ [target Hobs]]
         end.
  all: destruct Htimers as [Ht|(h & d & Ht & Hh & Hpos)]; simplify_eq;
    try lia; rewrite ?Ht, ?Hobs, ?filter_other_singleton; done.
Qed.

Lemma disconnect_torn_down w w1 :
  observer_inv w → timer_inv w → resizeObserver (this w) ≠ None →
  step w Disconnect = Some w1 →
  torn_down w1 ∧ nextObserver w1 = nextObserver w.
Proof.
  intros Hobs Htm Hsome Hstep.
  destruct (disconnect_cancels w w1 Hobs Htm Hstep)
    as (Ht & Ho & Hr & Htasks & Hupd & Hnext).
  split; [|done]. unfold torn_down, first_updated_work.
  rewrite Htasks, Hupd. repeat split; try done.
  destruct Hobs as [Hwork Hshape]. unfold first_updated_work in Hwork.
  destruct (resizeObserver (this w)); [|done]. lia.
Qed.

(** Nothing brings the observer back. *)
Lemma step_torn_down w e w' :
  torn_down w → step w e = Some w' →
  torn_down w' ∧ nextObserver w' = nextObserver w.
Proof.
  intros Hdown Hstep.
  destruct e; step_cases.
  all: unfold torn_down, first_updated_work in *; world_proj; comp_proj.
  all: destruct Hdown as (Hwork & Hobs & Hobservers & Htimers).
  all: rewrite ?first_tasks_app; simpl first_tasks.
  all: try match goal with
         | H : tasks _ !! _ = Some _ |- _ =>
             pose proof (first_tasks_delete _ _ _ H) as Hdel; simpl in Hdel
         end.
  all: use_guards.
  all: try congruence.
  all: try (repeat split; first [done | lia]).
  all: try (exfalso; lia).
  all: try (rewrite Htimers; repeat split; done).
  all: match goal with
       | H : bool_decide _ = true |- _ =>
           apply bool_decide_eq_true_1 in H; rewrite Hobservers in H;
           by apply elem_of_nil in H
       end.
Qed.

Lemma run_torn_down evs : ∀ w w',
  torn_down w → run w evs = Some w' →
  torn_down w' ∧ nextObserver w' = nextObserver w.
Proof.
  induction evs as [|e evs IH]; intros w w' Hdown Hrun; simpl in Hrun.
  - by simplify_eq.
  - destruct (step w e) as [w1|] eqn:He; [|done].
    destruct (step_torn_down w e w1 Hdown He) as [Hdown1 Hnext1].
    destruct (IH w1 w' Hdown1 Hrun) as [Hdown' Hnext'].
    split; [done|congruence].
Qed.

(** C10. In every run of an instance at most one resize observer is ever
    created (firstUpdated runs once and creates it only when the field is
    null).  Once disconnectedCallback has disconnected the observer and
    set the field to null, no later operation, reattaching included,
    creates another: the field stays null, nothing observes, no timeout is
    pending, and neither a resize notification nor a debounce timeout can
    be delivered to the instance again. *)
Theorem C10_observer_created_once (evs : list Event) (w : World) :
  run initial evs = Some w →
  nextObserver w ≤ 1 ∧
  ∀ w1 evs' w2,
    resizeObserver (this w) ≠ None →
    step w Disconnect = Some w1 →
    run w1 evs' = Some w2 →
    nextObserver w2 = nextObserver w ∧
    resizeObserver (this w2) = None ∧
    observers w2 = [] ∧
    timers w2 = [] ∧
    (∀ o, step w2 (ResizeNotify o) = None) ∧
    (∀ parentElement, step w2 (TimerFire parentElement) = None).
Proof.
  intros Hrun.
  assert (Hw : reachable w) by (by exists evs).
  pose proof (reachable_observer_inv w Hw) as Hobs.
  pose proof (reachable_timer_inv w Hw) as Htm.
  split.
  - destruct Hobs as [Hwork _]. lia.
  - intros w1 evs' w2 Hsome Hdis Hrun'.
    destruct (disconnect_torn_down w w1 Hobs Htm Hsome Hdis) as [Hdown1 Hn1].
    destruct (run_torn_down evs' w1 w2 Hdown1 Hrun')
      as [(_ & Hr & Ho & Ht) Hn2].
    repeat split; try done; [congruence| |].
    + intros o. unfold step. rewrite Ho. reflexivity.
    + intros p. unfold step. rewrite Ht. reflexivity.
Qed.

Lemma C10_observer_created_once_witness :
  ∃ w, run initial (take 5 replace_items_trace ++ [Resume 1 None]) = Some w ∧
       nextObserver w ≤ 1.
Proof.
  eexists. split; [vm_compute; reflexivity|].
  refine (proj1 (C10_observer_created_once
                   (take 5 replace_items_trace ++ [Resume 1 None]) _ _)).
  vm_compute. reflexivity.
Defined.

(** C3 on the code.  The component is torn down while the measurement
    started by firstUpdated is waiting.  At teardown nothing is measured.
    When the measurement resumes it writes measuredWidths, measured and
    visibleCount all the same; when firstUpdated then resumes it creates
    the resize observer, whose notifications start the debounce timeout,
    and the timeout runs the fit computation: all after teardown. *)
Theorem C3_teardown_does_not_stop_measurement :
  ∃ w_down w_measured w_observed w_fitted,
    run initial teardown_during_measurement = Some w_down ∧
    connected w_down = false ∧
    measured (this w_down) = false ∧
    measuredWidths (this w_down) = [] ∧
    visibleCount (this w_down) = 0 ∧
    observers w_down = [] ∧
    step w_down (Resume 0 None) = Some w_measured ∧
    measured (this w_measured) = true ∧
    measuredWidths (this w_measured) = [Some (Fin 0); Some (Fin 0)] ∧
    visibleCount (this w_measured) = 2 ∧
    step w_measured (Resume 1 None) = Some w_observed ∧
    connected w_observed = false ∧
    observers w_observed = [(0, This)] ∧
    run w_observed [ResizeNotify 0; AdvanceTo 50; TimerFire None]
    = Some w_fitted ∧
    fits w_fitted = fits w_observed ++ [(50, Fin 0)].
Proof.
  do 4 eexists.
  split; [vm_compute; reflexivity|]. do 5 (split; [reflexivity|]).
  split; [vm_compute; reflexivity|]. do 3 (split; [reflexivity|]).
  split; [vm_compute; reflexivity|]. do 2 (split; [reflexivity|]).
  split; [vm_compute; reflexivity|]. reflexivity.
Qed.

(** ** The resize debounce: C5 *)

Lemma last_time_cons t t' ts : last_time t (t' :: ts) = last_time t' ts.
Proof.
  unfold last_time. rewrite last_cons. by destruct (last ts).
Qed.

Lemma elapse_quiet fuel parentAt t w :
  timers w = [] → clock w ≤ t →
  elapse fuel parentAt t w = Some (with_clock t w).
Proof.
  intros Ht Hclock.
  destruct fuel; simpl; rewrite Ht; unfold step;
    (destruct (Nat.leb_spec (clock w) t); [reflexivity|lia]).
Qed.

Lemma elapse_before fuel parentAt t w handle deadline :
  timers w = [(handle, deadline)] → t < deadline → clock w ≤ t →
  elapse fuel parentAt t w = Some (with_clock t w).
Proof.
  intros Ht Hlt Hclock.
  destruct fuel; simpl; rewrite Ht;
    (destruct (Nat.leb_spec deadline t); [lia|]); unfold step;
    (destruct (Nat.leb_spec (clock w) t); [reflexivity|lia]).
Qed.

(** A notification cancels the pending timeout, if any, and sets one due
    50 after the current time; nothing is computed. *)
Lemma step_notify_rearms o w :
  timer_inv w → o ∈ (observers w).*1 →
  ∃ w', step w (ResizeNotify o) = Some w' ∧
        armed o (clock w) w' ∧
        fits w' = fits w ∧
        measuredWidths (this w') = measuredWidths (this w).
Proof.
  intros Hinv Ho.
  assert (Hstep : step w (ResizeNotify o) = Some (onContainerResize w)).
  { unfold step. by rewrite bool_decide_eq_true_2. }
  exists (onContainerResize w). split; [exact Hstep|].
  pose proof (step_timer_inv _ _ _ Hinv Hstep) as Hinv'.
  destruct Hinv as [Hnext Htimers].
  unfold armed. split; [|clear Hinv' Hstep; unfold_step; repeat case_match;
                          world_proj; comp_proj; done].
  split; [exact Hinv'|]. clear Hinv' Hstep.
  unfold_step; repeat case_match; world_proj; comp_proj; use_guards.
  all: repeat match goal with
         | H : (_ =? 0) = true |- _ => apply Nat.eqb_eq in H
         | H : (_ =? 0) = false |- _ => apply Nat.eqb_neq in H
         end.
  all: destruct Htimers as [Ht|(h & d & Ht & Hh & Hpos)]; simplify_eq;
    try lia; rewrite ?Ht, ?filter_other_singleton; simpl.
  all: split; [eexists; reflexivity|done].
Qed.

Lemma timer_inv_with_clock t w : timer_inv w → timer_inv (with_clock t w).
Proof. intros H. exact H. Qed.

Lemma notifications_armed parentAt o ts : ∀ t w,
  armed o t w → within_window t ts →
  ∃ w', notifications parentAt o ts w = Some w' ∧
        armed o (last_time t ts) w' ∧
        fits w' = fits w ∧
        measuredWidths (this w') = measuredWidths (this w).
Proof.
  induction ts as [|t' ts IH]; intros t w Harmed Hwin.
  - exists w. split; [reflexivity|]. split; [exact Harmed|]. done.
  - destruct Hwin as (Hle & Hlt & Hwin).
    destruct Harmed as (Hinv & [h Ht] & Hclock & Ho).
    cbn [notifications].
    rewrite (elapse_before _ parentAt t' w h (t + 50) Ht) by lia.
    destruct (step_notify_rearms o (with_clock t' w)
                (timer_inv_with_clock t' w Hinv) Ho)
      as (w2 & Hstep & Harmed2 & Hfits2 & Hmw2).
    rewrite Hstep. world_proj.
    destruct (IH t' w2 Harmed2 Hwin) as (w' & Hrun & Harmed' & Hfits' & Hmw').
    exists w'. rewrite last_time_cons.
    split; [exact Hrun|]. split; [exact Harmed'|]. split; congruence.
Qed.

(** Once the deadline is reached the pending timeout fires, on time, and
    runs the fit computation with the width the parent has then. *)
Lemma elapse_fires fuel parentAt o t tend w :
  armed o t w → t + 50 ≤ tend →
  ∃ w', elapse (S fuel) parentAt tend w = Some w' ∧
        fits w' = fits w ++ [(t + 50, containerWidth_of (parentAt (t + 50)))] ∧
        visibleCount (this w')
        = fit_count (measuredWidths (this w))
            (containerWidth_of (parentAt (t + 50))) ∧
        timers w' = [] ∧
        resizeTimeout (this w') = None ∧
        clock w' = tend.
Proof.
  intros (Hinv & [h Ht] & Hclock & Ho) Hend.
  cbn [elapse]. rewrite Ht.
  destruct (Nat.leb_spec (t + 50) tend); [|lia].
  rewrite Hclock, Nat.max_l by lia.
  assert (Hadv : step w (AdvanceTo (t + 50)) = Some (with_clock (t + 50) w)).
  { unfold step. rewrite Hclock.
    destruct (Nat.leb_spec t (t + 50)); [reflexivity|lia]. }
  rewrite Hadv.
  assert (Hfire : step (with_clock (t + 50) w)
                    (TimerFire (parentAt (clock (with_clock (t + 50) w))))
                  = Some (resize_timer_callback (parentAt (t + 50))
                            (with_timers [] (with_clock (t + 50) w)))).
  { unfold step. world_proj. rewrite Ht.
    destruct (Nat.leb_spec (t + 50) (t + 50)); [reflexivity|lia]. }
  rewrite Hfire.
  rewrite elapse_quiet; [|reflexivity|unfold resize_timer_callback; world_proj; lia].
  eexists. split; [reflexivity|].
  unfold resize_timer_callback. world_proj. comp_proj. done.
Qed.

(** C5. A burst of N >= 1 resize notifications, each arriving before the
    50 ms window of the one before it has elapsed, leads to exactly one
    fit computation: it runs 50 ms after the last notification and uses
    the container width the parent has at that time.  Every earlier
    notification's timeout was cancelled by the next one. *)
Theorem C5_burst_gives_one_fit
    (parentAt : nat → option HTMLElement) (o : nat) (w : World)
    (t : nat) (ts : list nat) (tend : nat) :
  timers w = [] →
  0 < nextTimer w →
  o ∈ (observers w).*1 →
  clock w ≤ t →
  within_window t ts →
  last_time t ts + 50 ≤ tend →
  let fired := last_time t ts + 50 in
  ∃ w', burst parentAt o (t :: ts) tend w = Some w' ∧
        fits w' = fits w ++ [(fired, containerWidth_of (parentAt fired))] ∧
        visibleCount (this w')
        = fit_count (measuredWidths (this w))
            (containerWidth_of (parentAt fired)) ∧
        timers w' = [] ∧
        resizeTimeout (this w') = None ∧
        clock w' = tend.
Proof.
  intros Ht Hnext Ho Hclock Hwin Hend fired.
  assert (Hinv : timer_inv w) by (split; [done|by left]).
  unfold burst. cbn [notifications].
  rewrite (elapse_quiet _ parentAt t w Ht Hclock).
  destruct (step_notify_rearms o (with_clock t w)
              (timer_inv_with_clock t w Hinv) Ho)
    as (w1 & Hstep & Harmed1 & Hfits1 & Hmw1).
  rewrite Hstep. world_proj.
  destruct (notifications_armed parentAt o ts t w1 Harmed1 Hwin)
    as (w2 & Hrun & Harmed2 & Hfits2 & Hmw2).
  rewrite Hrun.
  assert (Hlen : length (timers w2) = 1).
  { destruct Harmed2 as (_ & [h Ht2] & _). by rewrite Ht2. }
  rewrite Hlen.
  destruct (elapse_fires 0 parentAt o (last_time t ts) tend w2 Harmed2 Hend)
    as (w' & Hel & Hfits' & Hvc & Ht' & Hrt' & Hclock').
  exists w'. split; [exact Hel|].
  fold fired in Hfits', Hvc.
  rewrite Hfits', Hvc, Hfits2, Hfits1, Hmw2, Hmw1. done.
Qed.

(** The parent shrinks 200, 150, 120 with notifications at 0, 20 and 40:
    one fit computation, at time 90, with width 120. *)
Lemma C5_burst_gives_one_fit_witness :
  ∃ w', burst shrinking_parent 0 [0; 20; 40] 100 observed_world = Some w' ∧
        fits w' = [(90, px 120)].
Proof.
  destruct (C5_burst_gives_one_fit shrinking_parent 0 observed_world
              0 [20; 40] 100) as (w' & Hrun & Hfits & _).
  - reflexivity.
  - simpl; lia.
  - apply list_elem_of_singleton. reflexivity.
  - simpl; lia.
  - simpl; lia.
  - vm_compute; lia.
  - exists w'. split; [exact Hrun|]. rewrite Hfits. reflexivity.
Defined.

(* ================================================================== *)
(** * Part III: further properties of the component                    *)
(* ================================================================== *)

(** ** Reads and writes of arrays *)

Lemma length_arr_set {A} (a : array A) i v :
  length (arr_set a i v) = length a `max` S i.
Proof.
  unfold arr_set. case_decide.
  - rewrite length_insert. lia.
  - rewrite !length_app, length_replicate. simpl. lia.
Qed.

Lemma arr_get_set_eq {A} (a : array A) i v : arr_get (arr_set a i v) i = Some v.
Proof.
  unfold arr_get, arr_set. case_decide.
  - by rewrite list_lookup_insert_eq.
  - rewrite lookup_app_r by lia.
    rewrite lookup_app_r by (rewrite length_replicate; lia).
    rewrite length_replicate, Nat.sub_diag. reflexivity.
Qed.

Lemma arr_get_set_ne {A} (a : array A) i j v :
  i ≠ j → arr_get (arr_set a i v) j = arr_get a j.
Proof.
  intros Hne. unfold arr_get, arr_set. case_decide.
  - by rewrite list_lookup_insert_ne.
  - destruct (decide (j < length a)) as [Hj|Hj].
    + by rewrite lookup_app_l.
    + rewrite (lookup_ge_None_2 a j) by lia.
      rewrite lookup_app_r by lia.
      destruct (decide (j < i)) as [Hji|Hji].
      * rewrite lookup_app_l by (rewrite length_replicate; lia).
        rewrite lookup_replicate_2 by lia. reflexivity.
      * rewrite lookup_app_r by (rewrite length_replicate; lia).
        rewrite length_replicate. rewrite lookup_ge_None_2; [done|].
        simpl. lia.
Qed.

(** ** ensureRefs *)

Lemma ensure_refs_upto (refs : array Ref) (n : nat) :
  let refs' :=
    foldl (λ refs i,
             match arr_get refs i with
             | Some _ => refs
             | None => arr_set refs i createRef
             end)
      refs (seq 0 n) in
  length refs' = length refs `max` n ∧
  (∀ i r, arr_get refs i = Some r → arr_get refs' i = Some r) ∧
  (∀ i, i < n → arr_get refs i = None → arr_get refs' i = Some createRef) ∧
  (∀ i, n ≤ i → arr_get refs' i = arr_get refs i).
Proof.
  cbv zeta. induction n as [|n (IHlen & IHkeep & IHnew & IHrest)].
  - simpl. repeat split; try done; [lia|intros; lia].
  - rewrite seq_S, foldl_app. cbn [foldl Nat.add].
    match goal with
    | |- context [foldl ?f refs (seq 0 n)] =>
        set (refs' := foldl f refs (seq 0 n)) in *
    end.
    destruct (arr_get refs' n) as [r|] eqn:Hn.
    + repeat split.
      * rewrite IHlen.
        assert (n < length refs').
        { apply lookup_lt_is_Some. unfold arr_get in Hn.
          destruct (refs' !! n); [eauto|done]. }
        lia.
      * exact IHkeep.
      * intros i Hi Hnone. destruct (decide (i = n)) as [->|Hne].
        -- rewrite IHrest in Hn by lia. congruence.
        -- apply IHnew; [lia|done].
      * intros i Hi. apply IHrest. lia.
    + repeat split.
      * rewrite length_arr_set, IHlen. lia.
      * intros i r Hr. destruct (decide (i = n)) as [->|Hne].
        -- rewrite (IHkeep _ _ Hr) in Hn. done.
        -- rewrite arr_get_set_ne by done. by apply IHkeep.
      * intros i Hi Hnone. destruct (decide (i = n)) as [->|Hne].
        -- apply arr_get_set_eq.
        -- rewrite arr_get_set_ne by done. apply IHnew; [lia|done].
      * intros i Hi. rewrite arr_get_set_ne by lia. apply IHrest. lia.
Qed.

Lemma ensure_refs_noop (refs : array Ref) (n : nat) :
  (∀ i, i < n → arr_get refs i ≠ None) →
  foldl (λ refs i,
           match arr_get refs i with
           | Some _ => refs
           | None => arr_set refs i createRef
           end)
    refs (seq 0 n) = refs.
Proof.
  induction n as [|n IH]; intros Hall; [done|].
  rewrite seq_S, foldl_app. cbn [foldl Nat.add].
  rewrite IH by (intros i Hi; apply Hall; lia).
  specialize (Hall n (Nat.lt_succ_diag_r n)).
  destruct (arr_get refs n); done.
Qed.

(** X1. ensureRefs gives every item a Ref and keeps the ones there are:
    afterwards each index below items.length holds a Ref, a Ref that was
    there is the same Ref, a missing one is a fresh Ref without element,
    and indices from items.length on are untouched, so the array never
    shrinks (its length is the larger of the old length and
    items.length).  Calling it again changes nothing. *)
Theorem X1_ensureRefs_covers_items (c : OverflowWc) :
  let c' := ensureRefs c in
  length (itemRefs c') = length (itemRefs c) `max` length (items c) ∧
  (∀ i, i < length (items c) → arr_get (itemRefs c') i ≠ None) ∧
  (∀ i r, arr_get (itemRefs c) i = Some r → arr_get (itemRefs c') i = Some r) ∧
  (∀ i, i < length (items c) → arr_get (itemRefs c) i = None →
        arr_get (itemRefs c') i = Some createRef) ∧
  (∀ i, length (items c) ≤ i →
        arr_get (itemRefs c') i = arr_get (itemRefs c) i) ∧
  ensureRefs c' = c'.
Proof.
  intros c'.
  destruct (ensure_refs_upto (itemRefs c) (length (items c)))
    as (Hlen & Hkeep & Hnew & Hrest).
  assert (Hall : ∀ i, i < length (items c) → arr_get (itemRefs c') i ≠ None).
  { intros i Hi. destruct (arr_get (itemRefs c) i) as [r|] eqn:Hr.
    - unfold c', ensureRefs. cbn [itemRefs with_itemRefs].
      rewrite (Hkeep i r Hr). done.
    - unfold c', ensureRefs. cbn [itemRefs with_itemRefs].
      rewrite (Hnew i Hi Hr). done. }
  repeat split; try done.
  unfold ensureRefs at 1. cbn [items].
  change (items c') with (items c).
  rewrite (ensure_refs_noop (itemRefs c') (length (items c)) Hall).
  reflexivity.
Qed.

(** ** The change notification of the fit computation *)

(** X2. computeVisibleForCurrentWidth writes visibleCount only when the
    computed count differs: with an equal count the component is returned
    as it is and no update is requested; with a different count
    visibleCount takes it, an update is pending and "visibleCount" is
    among the changed properties.  Nothing but visibleCount and the
    update bookkeeping is touched, and a second call with the same
    container is a no-op. *)
Theorem X2_fit_notifies_only_on_change
    (parentElement : option HTMLElement) (c : OverflowWc) :
  let n := fit_count (measuredWidths c) (containerWidth_of parentElement) in
  let c' := computeVisibleForCurrentWidth parentElement c in
  (n = visibleCount c → c' = c) ∧
  (n ≠ visibleCount c →
   visibleCount c' = n ∧ isUpdatePending c' = true ∧
   "visibleCount" ∈ changedProperties c') ∧
  computeVisibleForCurrentWidth parentElement c' = c' ∧
  measuredWidths c' = measuredWidths c ∧ measured c' = measured c ∧
  items c' = items c ∧ itemRefs c' = itemRefs c ∧
  renderer c' = renderer c ∧
  resizeObserver c' = resizeObserver c ∧ resizeTimeout c' = resizeTimeout c.
Proof.
  intros n c'.
  assert (Hsame : ∀ d, fit_count (measuredWidths d) (containerWidth_of parentElement)
                       = visibleCount d →
                       computeVisibleForCurrentWidth parentElement d = d).
  { intros d Hd. unfold computeVisibleForCurrentWidth.
    rewrite Hd, Nat.eqb_refl. reflexivity. }
  split; [apply Hsame|]. split.
  - intros Hne. unfold c', computeVisibleForCurrentWidth, set_visibleCount.
    fold n. destruct (Nat.eqb_spec n (visibleCount c)); [done|]. cbn [negb].
    split; [reflexivity|]. split; [reflexivity|].
    apply elem_of_requestUpdate. by left.
  - split.
    + apply Hsame. unfold c'.
      rewrite visibleCount_computeVisible, computeVisible_measuredWidths. done.
    + unfold c'. repeat split; setters.
Qed.

(** ** More on the scan *)

Lemma greedy_app_le widths more : ∀ W s,
  greedy widths W s ≤ greedy (widths ++ more) W s.
Proof.
  induction widths as [|e rest IH]; intros W s; simpl; [lia|].
  destruct (num_le _ _); [|lia]. apply le_n_S, IH.
Qed.

Lemma greedy_app_cut widths more : ∀ W s,
  greedy widths W s < length widths →
  greedy (widths ++ more) W s = greedy widths W s.
Proof.
  induction widths as [|e rest IH]; intros W s Hcut; simpl in *; [lia|].
  destruct (num_le _ _); [|done]. f_equal. apply IH. lia.
Qed.

Lemma greedy_take widths : ∀ W s k,
  greedy widths W s < k →
  greedy (take k widths) W s = greedy widths W s.
Proof.
  induction widths as [|e rest IH]; intros W s k Hk; [by rewrite take_nil|].
  destruct k as [|k]; [lia|]. simpl in *.
  destruct (num_le _ _); [|done]. f_equal. apply IH. lia.
Qed.

(** X3. Items after the cutoff play no part.  Appending items never
    lowers the count; once the scan has stopped inside the array (the
    count is below the length), appending anything leaves the count as it
    is; and the count is already decided by the entries up to and
    including the first one that does not fit. *)
Theorem X3_fit_ignores_items_after_cutoff
    (widths more : array number) (W : number) :
  fit_count widths W ≤ fit_count (widths ++ more) W ∧
  (fit_count widths W < length widths →
   fit_count (widths ++ more) W = fit_count widths W) ∧
  fit_count (take (S (fit_count widths W)) widths) W = fit_count widths W.
Proof.
  rewrite !fit_count_greedy. split; [apply greedy_app_le|]. split.
  - apply greedy_app_cut.
  - apply greedy_take. lia.
Qed.




Lemma num_add_mono a a' b b' :
  nonneg a → nonneg b →
  num_le a a' = true → num_le b b' = true →
  nonneg (num_add a b) ∧ num_le (num_add a b) (num_add a' b') = true.
Proof. intros; split; num_crush. Qed.

Lemma greedy_narrower narrow wide : narrower narrow wide →
  ∀ W s s', nonneg s → num_le s s' = true →
            greedy wide W s' ≤ greedy narrow W s.
Proof.
  induction 1 as [|e e' narrow wide [He Hle] _ IH]; intros W s s' Hs Hss; simpl;
    [lia|].
  unfold width_of in He, Hle.
  destruct (num_add_mono s s' (or_zero e) (or_zero e') Hs He Hss Hle)
    as [Hnn Hsum].
  destruct (num_le (num_add s' (or_zero e')) W) eqn:Hwide; [|lia].
  rewrite (num_le_trans _ _ _ Hsum Hwide).
  apply le_n_S, IH; done.
Qed.

(** X5. Narrower items never hide anything: if, entry by entry, the
    widths of one array are non-negative and at most those of another,
    then for the same container the narrower array shows at least as
    many items. *)
Theorem X5_fit_monotone_in_item_widths
    (narrow wide : array number) (W : number) :
  narrower narrow wide →
  fit_count wide W ≤ fit_count narrow W.
Proof.
  intros H. rewrite !fit_count_greedy.
  apply (greedy_narrower _ _ H); reflexivity.
Qed.

Lemma X5_fit_monotone_in_item_widths_witness :
  fit_count [Some (px 50); Some (px 30); Some (px 40)] (px 100)
  ≤ fit_count [Some (px 40); None; Some (px 40)] (px 100).
Proof.
  apply X5_fit_monotone_in_item_widths.
  repeat constructor.
Defined.

(** ** Before the first update *)

Lemma step_fresh_inv w e w' :
  fresh_inv w → step w e = Some w' → fresh_inv w'.
Proof.
  intros Hinv Hstep.
  destruct e; step_cases.
  all: unfold fresh_inv in *; world_proj; comp_proj.
  all: try exact Hinv.
  all: try (intros Hf; discriminate Hf).
  all: intros Hf;
    destruct (Hinv Hf) as (Hrefs & Hm & Hmw & Hvc & Htasks & Htimers & Hobs).
  all: try match goal with
         | H : tasks ?w !! _ = Some _ |- _ =>
             rewrite Htasks in H; discriminate H
         end.
  all: try match goal with
         | H : bool_decide _ = true |- _ =>
             apply bool_decide_eq_true_1 in H; rewrite Hobs in H;
             by apply elem_of_nil in H
         end.
  all: try congruence.
  all: rewrite ?Htimers, ?Hobs; done.
Qed.

Lemma reachable_fresh_inv w : reachable w → fresh_inv w.
Proof.
  intros [evs Hrun].
  apply (run_preserves _ step_fresh_inv evs initial); [|done].
  intros _. done.
Qed.

(** X6. Until the first update has happened the component holds no Ref,
    is not measured, shows nothing, and has no continuation, timeout or
    observer; so the first render is the placeholder or, with a renderer,
    the hidden container with one span per item none of which is bound to
    a Ref (the Refs are only created by firstUpdated, after that
    render). *)
Theorem X6_first_render_binds_no_ref (w : World) :
  reachable w →
  hasUpdated (this w) = false →
  itemRefs (this w) = [] ∧ measured (this w) = false ∧
  visibleCount (this w) = 0 ∧
  tasks w = [] ∧ timers w = [] ∧ observers w = [] ∧
  render (this w)
  = match renderer (this w) with
    | None => NoRendererDiv
    | Some r => HiddenMeasure (imap (λ index item, (None, r item index))
                                 (items (this w)))
    end.
Proof.
  intros Hw Hf.
  destruct (reachable_fresh_inv w Hw Hf) as (H1 & H2 & H3 & H4 & H5 & H6 & H7).
  repeat split; try done.
  unfold render. rewrite H1, H2. destruct (renderer (this w)); reflexivity.
Qed.

Lemma X6_first_render_binds_no_ref_witness :
  ∃ w, run initial (take 3 replace_items_trace) = Some w ∧
       itemRefs (this w) = [].
Proof.
  eexists. split; [vm_compute; reflexivity|].
  refine (proj1 (X6_first_render_binds_no_ref _ _ _)).
  - exists (take 3 replace_items_trace). vm_compute. reflexivity.
  - reflexivity.
Defined.

(** ** The first measurement *)

Lemma set_measured_itemRefs v c : itemRefs (set_measured v c) = itemRefs c.
Proof. setters. Qed.

Lemma refs_empty_nil : refs_empty [].
Proof. intros i r H. unfold arr_get in H. by rewrite lookup_nil in H. Qed.

Lemma refs_empty_ensureRefs c :
  refs_empty (itemRefs c) → refs_empty (itemRefs (ensureRefs c)).
Proof.
  intros Hempty i r Hr.
  destruct (ensure_refs_upto (itemRefs c) (length (items c)))
    as (_ & Hkeep & Hnew & Hrest).
  unfold ensureRefs in Hr. cbn [itemRefs with_itemRefs] in Hr.
  destruct (arr_get (itemRefs c) i) as [r0|] eqn:Hold.
  - rewrite (Hkeep i r0 Hold) in Hr. simplify_eq. by eapply Hempty.
  - destruct (decide (i < length (items c))) as [Hi|Hi].
    + rewrite (Hnew i Hi Hold) in Hr. by simplify_eq.
    + rewrite Hrest in Hr by lia. congruence.
Qed.

Lemma measure_widths_refs_empty c :
  refs_empty (itemRefs c) →
  measure_widths c = replicate (length (items c)) (Some (Fin 0)).
Proof.
  intros Hempty. destruct (measure_widths_spec c) as [Hlen Hget].
  apply list_eq_same_length with (length (items c));
    [by rewrite length_replicate|done|].
  intros i x y Hi Hx Hy.
  rewrite (Hget i Hi) in Hx. rewrite lookup_replicate_2 in Hy by done.
  simplify_eq.
  destruct (arr_get (itemRefs c) i) as [r|] eqn:Hr; [|reflexivity].
  simpl. by rewrite (Hempty i r Hr).
Qed.

Lemma greedy_zero_widths W n : ∀ q,
  num_le (Fin q) W = true →
  greedy (replicate n (Some (Fin 0))) W (Fin q) = n.
Proof.
  induction n as [|n IH]; intros q Hq; cbn [replicate greedy]; [done|].
  change (or_zero (Some (Fin 0))) with (Fin 0).
  assert (Hq' : num_le (num_add (Fin q) (Fin 0)) W = true).
  { rewrite <- Hq. apply num_le_proper; [|apply num_eq_refl]. simpl. lra. }
  rewrite Hq'. f_equal. apply (IH (q + 0)%Q). exact Hq'.
Qed.

(** X7. The first measurement of an instance records width 0 for every
    item.  The first render comes before firstUpdated creates the Refs,
    so no span is bound to one; when the measurement started by
    firstUpdated resumes right after that update, every Ref is still
    without element.  measuredWidths is then items.length zeros, measured
    is true, and for any non-negative container width every item counts
    as visible. *)
Theorem X7_first_measurement_is_all_zero
    (w w1 w2 : World) (layout : nat → HTMLElement)
    (parentElement : option HTMLElement) :
  reachable w →
  hasUpdated (this w) = false →
  step w (PerformUpdate layout) = Some w1 →
  step w1 (Resume 0 parentElement) = Some w2 →
  measured (this w2) = true ∧
  measuredWidths (this w2)
  = replicate (length (items (this w))) (Some (Fin 0)) ∧
  (nonneg (containerWidth_of parentElement) →
   visibleCount (this w2) = length (items (this w))).
Proof.
  intros Hw Hf Hup Hres.
  destruct (reachable_fresh_inv w Hw Hf) as (Hrefs & _ & _ & _ & Htasks & _).
  assert (H1 : tasks w1 !! 0 = Some (AwaitMeasure true) ∧
               refs_empty (itemRefs (this w1)) ∧
               items (this w1) = items (this w)).
  { clear Hres. step_cases; world_proj.
    all: try (cbn [hasUpdated markUpdated commit with_itemRefs] in *;
              rewrite Hf in *; discriminate).
    all: rewrite Htasks; split; [reflexivity|]; split; [|by comp_proj].
    all: repeat first [ apply refs_empty_ensureRefs
                      | rewrite set_measured_itemRefs ].
    all: cbn [itemRefs with_hasUpdated markUpdated commit with_itemRefs];
      rewrite Hrefs; apply refs_empty_nil. }
  destruct H1 as (Htask & Hempty & Hitems).
  unfold step in Hres. rewrite Htask in Hres. simplify_eq.
  unfold resume, measureAllItems_rest. world_proj. comp_proj.
  rewrite (measure_widths_refs_empty _ Hempty), Hitems.
  split; [reflexivity|]. split; [reflexivity|].
  intros HW. rewrite fit_count_greedy. by apply greedy_zero_widths.
Qed.

Lemma X7_first_measurement_is_all_zero_witness :
  match run initial (take 3 replace_items_trace) with
  | Some w =>
      match step w (PerformUpdate layout40) with
      | Some w1 =>
          match step w1 (Resume 0 (Some (element_of_width 200))) with
          | Some w2 =>
              measuredWidths (this w2)
              = replicate (length (items (this w))) (Some (Fin 0))
          | None => False
          end
      | None => False
      end
  | None => False
  end.
Proof.
  destruct (run initial (take 3 replace_items_trace)) as [w|] eqn:Hw;
    [|vm_compute in Hw; discriminate Hw].
  destruct (step w (PerformUpdate layout40)) as [w1|] eqn:H1;
    [|vm_compute in Hw; simplify_eq; vm_compute in H1; discriminate H1].
  destruct (step w1 (Resume 0 (Some (element_of_width 200)))) as [w2|] eqn:H2;
    [|vm_compute in Hw; simplify_eq; vm_compute in H1; simplify_eq;
      vm_compute in H2; discriminate H2].
  refine (proj1 (proj2 (X7_first_measurement_is_all_zero
                          w w1 w2 layout40 (Some (element_of_width 200))
                          _ _ H1 H2))).
  - exists (take 3 replace_items_trace). exact Hw.
  - vm_compute in Hw. simplify_eq. reflexivity.
Defined.

(** ** The resize path *)

(** X8. In every reachable state at most one debounce timeout is
    pending, and if one is pending resizeTimeout holds its (non-zero)
    handle: each resize notification cancels the pending timeout before
    it sets the next, the callback and teardown leave none. *)
Theorem X8_at_most_one_timeout_pending (w : World) :
  reachable w →
  length (timers w) ≤ 1 ∧
  ∀ handle deadline, (handle, deadline) ∈ timers w →
    resizeTimeout (this w) = Some handle ∧ 0 < handle.
Proof.
  intros Hw. destruct (reachable_timer_inv w Hw) as [_ Htimers].
  destruct Htimers as [->|(h & d & -> & Hrt & Hpos)].
  - split; [simpl; lia|]. intros h d Hin. by apply elem_of_nil in Hin.
  - split; [simpl; lia|]. intros h' d' Hin.
    apply list_elem_of_singleton in Hin. by simplify_eq.
Qed.

Lemma X8_at_most_one_timeout_pending_witness :
  ∃ w, run initial (take 5 replace_items_trace) = Some w ∧
       length (timers w) ≤ 1.
Proof.
  eexists. split; [vm_compute; reflexivity|].
  refine (proj1 (X8_at_most_one_timeout_pending _ _)).
  exists (take 5 replace_items_trace). vm_compute. reflexivity.
Defined.

Lemma computeVisible_itemRefs p c :
  itemRefs (computeVisibleForCurrentWidth p c) = itemRefs c.
Proof. setters. Qed.

(** X9. The resize path never measures.  A resize notification only
    (re)starts the timeout, due 50 after the current time: it computes
    nothing and leaves the widths, the measured flag, the visible count,
    the items, the Refs and the suspended continuations as they are.  The
    timeout's callback recomputes visibleCount from the stored widths and
    the container width read at that moment, clears resizeTimeout, and
    leaves widths, flag, items, Refs and continuations as they are. *)
Theorem X9_resize_uses_stored_widths (w w' : World) :
  (∀ o, step w (ResizeNotify o) = Some w' →
     fits w' = fits w ∧ tasks w' = tasks w ∧
     measuredWidths (this w') = measuredWidths (this w) ∧
     measured (this w') = measured (this w) ∧
     visibleCount (this w') = visibleCount (this w) ∧
     items (this w') = items (this w) ∧
     itemRefs (this w') = itemRefs (this w) ∧
     resizeTimeout (this w') = Some (nextTimer w) ∧
     (nextTimer w, clock w + 50) ∈ timers w') ∧
  (∀ parentElement, step w (TimerFire parentElement) = Some w' →
     fits w' = fits w ++ [(clock w, containerWidth_of parentElement)] ∧
     tasks w' = tasks w ∧
     measuredWidths (this w') = measuredWidths (this w) ∧
     measured (this w') = measured (this w) ∧
     visibleCount (this w')
     = fit_count (measuredWidths (this w)) (containerWidth_of parentElement) ∧
     items (this w') = items (this w) ∧
     itemRefs (this w') = itemRefs (this w) ∧
     resizeTimeout (this w') = None).
Proof.
  split.
  - intros o Hstep. step_cases; world_proj; comp_proj.
    all: repeat split; try done.
    all: apply elem_of_app; right; by apply list_elem_of_singleton.
  - intros p Hstep. step_cases; world_proj; comp_proj.
    rewrite computeVisible_itemRefs. done.
Qed.

(** ** Teardown *)

(** X10. In every reachable state disconnectedCallback leaves no timeout
    pending and no observer observing, and sets resizeObserver to null,
    so that no notification and no timeout can be delivered right after
    it.  It does not touch the widths, the measured flag, the visible
    count or the items, it does not reset resizeTimeout, and it does not
    cancel the suspended continuations. *)
Theorem X10_teardown_cancels_timer_and_observer (w w1 : World) :
  reachable w →
  step w Disconnect = Some w1 →
  timers w1 = [] ∧ observers w1 = [] ∧ resizeObserver (this w1) = None ∧
  connected w1 = false ∧
  (∀ o, step w1 (ResizeNotify o) = None) ∧
  (∀ parentElement, step w1 (TimerFire parentElement) = None) ∧
  tasks w1 = tasks w ∧
  resizeTimeout (this w1) = resizeTimeout (this w) ∧
  measuredWidths (this w1) = measuredWidths (this w) ∧
  measured (this w1) = measured (this w) ∧
  visibleCount (this w1) = visibleCount (this w) ∧
  items (this w1) = items (this w).
Proof.
  intros Hw Hstep.
  destruct (disconnect_cancels w w1 (reachable_observer_inv w Hw)
              (reachable_timer_inv w Hw) Hstep)
    as (Ht & Ho & Hr & Htasks & _ & _).
  split; [exact Ht|]. split; [exact Ho|]. split; [exact Hr|].
  split; [|split; [|split; [|split; [exact Htasks|]]]].
  - clear -Hstep. step_cases; reflexivity.
  - intros o. unfold step. rewrite Ho. reflexivity.
  - intros p. unfold step. rewrite Ht. reflexivity.
  - clear -Hstep. step_cases; world_proj; comp_proj; done.
Qed.

Lemma X10_teardown_cancels_timer_and_observer_witness :
  match run initial (take 4 teardown_during_measurement) with
  | Some w =>
      match step w Disconnect with
      | Some w1 => timers w1 = []
      | None => False
      end
  | None => False
  end.
Proof.
  destruct (run initial (take 4 teardown_during_measurement)) as [w|] eqn:Hw;
    [|vm_compute in Hw; discriminate Hw].
  destruct (step w Disconnect) as [w1|] eqn:H1;
    [|vm_compute in Hw; simplify_eq; vm_compute in H1; discriminate H1].
  refine (proj1 (X10_teardown_cancels_timer_and_observer w w1 _ H1)).
  exists (take 4 teardown_during_measurement). exact Hw.
Defined.

(** ** The observer *)

Lemma first_tasks_zero ts :
  first_tasks ts = 0 → ∀ t, t ∈ ts → is_first_task t = false.
Proof.
  induction ts as [|t' ts IH]; intros H0 t Hin.
  - by apply elem_of_nil in Hin.
  - simpl in H0. apply elem_of_cons in Hin as [->|Hin].
    + destruct (is_first_task t'); [lia|done].
    + apply IH; [|done]. destruct (is_first_task t'); lia.
Qed.

(** X11. In every reachable state the observers that observe are exactly
    the one the component holds in resizeObserver (none when the field is
    null), so teardown always reaches it; and an observer exists only
    once firstUpdated has run to its end: the first update has happened
    and no continuation of firstUpdated is suspended any more. *)
Theorem X11_observer_is_the_one_held (w : World) :
  reachable w →
  ((observers w).*1
   = match resizeObserver (this w) with Some o => [o] | None => [] end) ∧
  (resizeObserver (this w) ≠ None →
   hasUpdated (this w) = true ∧
   (AwaitMeasure true ∉ tasks w) ∧ (FirstUpdatedRest ∉ tasks w)).
Proof.
  intros Hw. destruct (reachable_observer_inv w Hw) as [Hwork Hshape].
  unfold first_updated_work in Hwork.
  destruct (resizeObserver (this w)) as [o|].
  - destruct Hshape as [Hpos [target Hobs]]. rewrite Hobs.
    split; [reflexivity|]. intros _.
    destruct (hasUpdated (this w)); [|lia].
    split; [reflexivity|].
    assert (H0 : first_tasks (tasks w) = 0) by lia.
    split; intros Hin; by apply (first_tasks_zero _ H0) in Hin.
  - rewrite Hshape. split; [reflexivity|]. done.
Qed.

Lemma X11_observer_is_the_one_held_witness :
  ∃ w, run initial (take 5 replace_items_trace ++ [Resume 1 None]) = Some w ∧
       (observers w).*1 = [0].
Proof.
  eexists. split; [vm_compute; reflexivity|].
  refine (proj1 (X11_observer_is_the_one_held _ _)).
  exists (take 5 replace_items_trace ++ [Resume 1 None]).
  vm_compute. reflexivity.
Defined.

(** ** Updates *)

Lemma ensureRefs_covers c i :
  i < length (items c) → arr_get (itemRefs (ensureRefs c)) i ≠ None.
Proof.
  intros Hi.
  destruct (ensure_refs_upto (itemRefs c) (length (items c)))
    as (_ & Hkeep & Hnew & _).
  unfold ensureRefs. cbn [itemRefs with_itemRefs].
  destruct (arr_get (itemRefs c) i) as [r|] eqn:Hr.
  - by rewrite (Hkeep i r Hr).
  - by rewrite (Hnew i Hi Hr).
Qed.

Lemma set_measured_renderer v c : renderer (set_measured v c) = renderer c.
Proof. setters. Qed.

Lemma computeVisible_renderer p c :
  renderer (computeVisibleForCurrentWidth p c) = renderer c.
Proof. setters. Qed.

Lemma set_measured_pending c :
  measured c = true → isUpdatePending (set_measured false c) = true.
Proof. intros H. unfold set_measured. rewrite H. reflexivity. Qed.

Lemma render_hidden_all_bound c r :
  renderer c = Some r → measured c = false →
  (∀ i, i < length (items c) → arr_get (itemRefs c) i ≠ None) →
  render c
  = HiddenMeasure (imap (λ index item, (Some index, r item index)) (items c)).
Proof.
  intros Hr Hm Hall. unfold render. rewrite Hr, Hm. cbn [negb]. f_equal.
  apply imap_ext. intros i item Hi. cbn beta.
  specialize (Hall i (lookup_lt_Some _ _ _ Hi)).
  destruct (arr_get (itemRefs c) i); done.
Qed.

(** X12. Replacing the items restarts the measuring phase.  After the
    caller assigns a new array and the host performs the next update,
    measured is false, every item of the new array has a Ref, the next
    render is the hidden container with one span per new item, each bound
    to the Ref at its own index, and a measurement is scheduled.  If the
    component was measured, the update that will render that hidden
    container is pending.  The widths and the visible count of the old
    array stay until the measurement completes. *)
Theorem X12_items_change_restarts_measuring
    (w w1 w2 : World) (v : list Item) (layout : nat → HTMLElement)
    (r : Item → nat → TemplateResult) :
  renderer (this w) = Some r →
  step w (SetItems v) = Some w1 →
  step w1 (PerformUpdate layout) = Some w2 →
  items (this w2) = v ∧
  measured (this w2) = false ∧
  render (this w2)
  = HiddenMeasure (imap (λ index item, (Some index, r item index)) v) ∧
  ThenMeasure ∈ tasks w2 ∧
  (measured (this w) = true → isUpdatePending (this w2) = true) ∧
  measuredWidths (this w2) = measuredWidths (this w) ∧
  visibleCount (this w2) = visibleCount (this w).
Proof.
  intros Hr Hset Hup.
  assert (Hw1 : w1 = with_this (set_items v (this w)) w)
    by (unfold step in Hset; by simplify_eq).
  subst w1. unfold step in Hup.
  destruct (updatingEnabled _ && isUpdatePending _); [|done]. simplify_eq.
  unfold performUpdate, updated. cbv zeta. world_proj.
  rewrite (bool_decide_eq_true_2 _ (items_changed_set_items v (this w))).
  match goal with
  | |- context [with_this (ensureRefs (set_measured false ?c)) _] =>
      set (c0 := c)
  end.
  assert (Hc0 : items c0 = v ∧ renderer c0 = Some r ∧
                measured c0 = measured (this w) ∧
                measuredWidths c0 = measuredWidths (this w) ∧
                visibleCount c0 = visibleCount (this w)).
  { unfold c0. destruct (negb _); world_proj; comp_proj; done. }
  destruct Hc0 as (Hitems & Hrend & Hmeas & Hmw & Hvc).
  world_proj.
  assert (Hi2 : items (ensureRefs (set_measured false c0)) = v)
    by (cbn [items ensureRefs with_itemRefs]; by rewrite set_measured_items).
  split; [exact Hi2|].
  assert (Hm2 : measured (ensureRefs (set_measured false c0)) = false)
    by (cbn [measured ensureRefs with_itemRefs]; by rewrite set_measured_measured).
  split; [exact Hm2|]. split.
  - assert (Hrender := render_hidden_all_bound
                         (ensureRefs (set_measured false c0)) r).
    rewrite Hi2 in Hrender. apply Hrender; [|exact Hm2|].
    + cbn [renderer ensureRefs with_itemRefs]. by rewrite set_measured_renderer.
    + intros i Hi. apply ensureRefs_covers.
      by rewrite set_measured_items, Hitems.
  - split; [apply elem_of_app; right; by apply list_elem_of_singleton|].
    split.
    + intros Htrue. cbn [isUpdatePending ensureRefs with_itemRefs].
      apply set_measured_pending. congruence.
    + cbn [measuredWidths visibleCount ensureRefs with_itemRefs].
      by rewrite set_measured_measuredWidths, set_measured_visibleCount.
Qed.

Lemma X12_items_change_restarts_measuring_witness :
  match run initial (take 5 replace_items_trace) with
  | Some w =>
      match step w (SetItems [labelled "a"]) with
      | Some w1 =>
          match step w1 (PerformUpdate layout40) with
          | Some w2 => items (this w2) = [labelled "a"]
          | None => False
          end
      | None => False
      end
  | None => False
  end.
Proof.
  destruct (run initial (take 5 replace_items_trace)) as [w|] eqn:Hw;
    [|vm_compute in Hw; discriminate Hw].
  destruct (step w (SetItems [labelled "a"])) as [w1|] eqn:H1;
    [|vm_compute in Hw; simplify_eq; vm_compute in H1; discriminate H1].
  destruct (step w1 (PerformUpdate layout40)) as [w2|] eqn:H2;
    [|vm_compute in Hw; simplify_eq; vm_compute in H1; simplify_eq;
      vm_compute in H2; discriminate H2].
  refine (proj1 (X12_items_change_restarts_measuring
                   w w1 w2 [labelled "a"] layout40 plain_renderer _ H1 H2)).
  vm_compute in Hw. simplify_eq. reflexivity.
Defined.

(** X13. An update that sees no change of items measures nothing: once
    the first update has happened, an update whose changed properties do
    not include "items" (a new visible count, a new renderer) schedules
    no measurement and leaves the measured flag, the widths, the visible
    count and the items as they are; afterwards no update is pending. *)
Theorem X13_update_without_items_change
    (w w' : World) (layout : nat → HTMLElement) :
  hasUpdated (this w) = true →
  "items" ∉ changedProperties (this w) →
  step w (PerformUpdate layout) = Some w' →
  tasks w' = tasks w ∧ fits w' = fits w ∧
  measured (this w') = measured (this w) ∧
  measuredWidths (this w') = measuredWidths (this w) ∧
  visibleCount (this w') = visibleCount (this w) ∧
  items (this w') = items (this w) ∧
  isUpdatePending (this w') = false ∧
  changedProperties (this w') = [].
Proof.
  intros Hup Hitems Hstep. step_cases; world_proj; comp_proj.
  all: try (exfalso; apply Hitems; by eapply bool_decide_eq_true_1).
  all: try (rewrite Hup in *; discriminate).
  done.
Qed.

Lemma X13_update_without_items_change_witness :
  match run initial (take 5 replace_items_trace ++ [PerformUpdate layout40]) with
  | Some w =>
      match step w (SetRenderer (Some plain_renderer)) with
      | Some w0 =>
          match step w0 (PerformUpdate layout40) with
          | Some w' => tasks w' = tasks w0
          | None => False
          end
      | None => False
      end
  | None => False
  end.
Proof.
  destruct (run initial (take 5 replace_items_trace ++ [PerformUpdate layout40]))
    as [w|] eqn:Hw; [|vm_compute in Hw; discriminate Hw].
  destruct (step w (SetRenderer (Some plain_renderer))) as [w0|] eqn:H0;
    [|vm_compute in Hw; simplify_eq; vm_compute in H0; discriminate H0].
  destruct (step w0 (PerformUpdate layout40)) as [w'|] eqn:H1;
    [|vm_compute in Hw; simplify_eq; vm_compute in H0; simplify_eq;
      vm_compute in H1; discriminate H1].
  refine (proj1 (X13_update_without_items_change w0 w' layout40 _ _ H1)).
  - vm_compute in Hw. simplify_eq. vm_compute in H0. simplify_eq. reflexivity.
  - vm_compute in Hw. simplify_eq. vm_compute in H0. simplify_eq.
    intros Hin. apply list_elem_of_singleton in Hin. discriminate Hin.
Defined.

(** ** A measurement pass over the hidden container *)

Lemma arr_get_Some_lookup {A} (a : array A) i :
  arr_get a i ≠ None → ∃ x, a !! i = Some (Some x).
Proof.
  unfold arr_get. destruct (a !! i) as [[x|]|]; try done. eauto.
Qed.

Lemma commit_binds c r layout i :
  renderer c = Some r → measured c = false →
  (∀ j, j < length (items c) → arr_get (itemRefs c) j ≠ None) →
  i < length (items c) →
  arr_get (itemRefs (commit (render c) layout c)) i
  = Some {| value := Some (layout i) |}.
Proof.
  intros Hr Hm Hall Hi.
  rewrite (render_hidden_all_bound c r Hr Hm Hall).
  destruct (arr_get_Some_lookup _ _ (Hall i Hi)) as [ref Href].
  destruct (lookup_lt_is_Some_2 (items c) i Hi) as [item Hitem].
  unfold commit, arr_get. cbn [itemRefs with_itemRefs].
  rewrite list_lookup_imap, Href. cbn.
  rewrite list_lookup_imap, Hitem. reflexivity.
Qed.

Lemma ensureRefs_keeps c i r :
  arr_get (itemRefs c) i = Some r → arr_get (itemRefs (ensureRefs c)) i = Some r.
Proof.
  intros Hr.
  destruct (ensure_refs_upto (itemRefs c) (length (items c))) as (_ & Hkeep & _).
  unfold ensureRefs. cbn [itemRefs with_itemRefs]. by apply Hkeep.
Qed.

Lemma performUpdate_items layout w :
  items (this (performUpdate layout w)) = items (this w).
Proof.
  unfold performUpdate, updated. cbv zeta.
  repeat case_match; world_proj; by comp_proj.
Qed.

Lemma performUpdate_keeps_refs layout w i r :
  arr_get (itemRefs (commit (render (this w)) layout (this w))) i = Some r →
  arr_get (itemRefs (this (performUpdate layout w))) i = Some r.
Proof.
  intros Hr. unfold performUpdate, updated. cbv zeta.
  repeat case_match; world_proj.
  all: repeat first [ apply ensureRefs_keeps | rewrite set_measured_itemRefs ].
  all: exact Hr.
Qed.

(** X14. A measurement over the hidden container records the width of
    each item's own span.  From a state that is not measured, has a
    renderer and a Ref for every item, the next update renders the hidden
    container and binds span i to Ref i; a measurement that resumes after
    it stores, at each index, the bounding width of the element laid out
    for that span, sets measured, and sets visibleCount to the fit of
    exactly those widths in the container width read at that moment. *)
Theorem X14_measurement_reads_span_widths
    (w w1 w2 : World) (layout : nat → HTMLElement)
    (r : Item → nat → TemplateResult) (n : nat) (b : bool)
    (parentElement : option HTMLElement) :
  renderer (this w) = Some r →
  measured (this w) = false →
  (∀ i, i < length (items (this w)) → arr_get (itemRefs (this w)) i ≠ None) →
  step w (PerformUpdate layout) = Some w1 →
  tasks w1 !! n = Some (AwaitMeasure b) →
  step w1 (Resume n parentElement) = Some w2 →
  let widths :=
    imap (λ i _, Some (boundingClientRectWidth (layout i))) (items (this w)) in
  measuredWidths (this w2) = widths ∧
  measured (this w2) = true ∧
  visibleCount (this w2) = fit_count widths (containerWidth_of parentElement).
Proof.
  intros Hr Hm Hall Hup Htask Hres widths.
  assert (Hw1 : w1 = performUpdate layout w).
  { unfold step in Hup. destruct (_ && _); by simplify_eq. }
  assert (Hrefs : ∀ i, i < length (items (this w)) →
            arr_get (itemRefs (this w1)) i = Some {| value := Some (layout i) |}).
  { intros i Hi. rewrite Hw1.
    apply performUpdate_keeps_refs. by eapply commit_binds. }
  assert (Hitems : items (this w1) = items (this w))
    by (rewrite Hw1; apply performUpdate_items).
  unfold step in Hres. rewrite Htask in Hres. simplify_eq.
  unfold resume, measureAllItems_rest.
  assert (Hmw : measure_widths (this (performUpdate layout w)) = widths).
  { destruct (measure_widths_spec (this (performUpdate layout w))) as [Hlen Hget].
    rewrite Hitems in Hlen, Hget.
    apply list_eq_same_length with (length (items (this w)));
      [by unfold widths; rewrite length_imap|done|].
    intros i x y Hi Hx Hy. rewrite (Hget i Hi), (Hrefs i Hi) in Hx.
    unfold widths in Hy. rewrite list_lookup_imap in Hy.
    destruct (lookup_lt_is_Some_2 (items (this w)) i Hi) as [item Hitem].
    rewrite Hitem in Hy. simpl in Hx, Hy. congruence. }
  destruct b; world_proj; comp_proj; rewrite Hmw; done.
Qed.

Lemma X14_measurement_reads_span_widths_witness :
  match step (with_tasks [AwaitMeasure false]
                (with_this (requestUpdate "measured" half_rendered) observed_world))
          (PerformUpdate layout40) with
  | Some w1 =>
      match step w1 (Resume 0 (Some (element_of_width 60))) with
      | Some w2 => measuredWidths (this w2) = [Some (px 40); Some (px 40)]
      | None => False
      end
  | None => False
  end.
Proof.
  set (w := with_tasks [AwaitMeasure false]
              (with_this (requestUpdate "measured" half_rendered) observed_world)).
  destruct (step w (PerformUpdate layout40)) as [w1|] eqn:H1;
    [|vm_compute in H1; discriminate H1].
  destruct (step w1 (Resume 0 (Some (element_of_width 60)))) as [w2|] eqn:H2;
    [|vm_compute in H1; simplify_eq; vm_compute in H2; discriminate H2].
  refine (proj1 (X14_measurement_reads_span_widths
                   w w1 w2 layout40 plain_renderer 0 false
                   (Some (element_of_width 60)) _ _ _ H1 _ H2)).
  - reflexivity.
  - reflexivity.
  - intros [|[|i]] Hi; simpl in Hi; [done|done|lia].
  - vm_compute in H1. simplify_eq. reflexivity.
Defined.

Lemma set_measured_keeps_pending v c :
  isUpdatePending c = true → isUpdatePending (set_measured v c) = true.
Proof. intros H. unfold set_measured. by case_match. Qed.

Lemma set_measured_keeps_changed name v c :
  name ∈ changedProperties c → name ∈ changedProperties (set_measured v c).
Proof.
  intros H. unfold set_measured. case_match; [done|].
  apply elem_of_requestUpdate. by right.
Qed.

Lemma computeVisible_keeps_pending p c :
  isUpdatePending c = true →
  isUpdatePending (computeVisibleForCurrentWidth p c) = true.
Proof.
  intros H. unfold computeVisibleForCurrentWidth, set_visibleCount.
  by repeat case_match.
Qed.

Lemma computeVisible_keeps_changed name p c :
  name ∈ changedProperties c →
  name ∈ changedProperties (computeVisibleForCurrentWidth p c).
Proof.
  intros H. unfold computeVisibleForCurrentWidth, set_visibleCount.
  repeat case_match; try done. apply elem_of_requestUpdate. by right.
Qed.

(** X15. A measurement that completes runs the fit computation exactly
    once, after all widths are stored: the resumed measureAllItems
    replaces measuredWidths by the freshly measured widths, sets
    measured, computes visibleCount from those widths, and always leaves
    an update pending with "measuredWidths" among the changed
    properties.  It is removed from the suspended continuations; only the
    one started by firstUpdated leaves a continuation behind. *)
Theorem X15_measurement_fits_once
    (w w' : World) (n : nat) (b : bool) (parentElement : option HTMLElement) :
  tasks w !! n = Some (AwaitMeasure b) →
  step w (Resume n parentElement) = Some w' →
  fits w' = fits w ++ [(clock w, containerWidth_of parentElement)] ∧
  measuredWidths (this w') = measure_widths (this w) ∧
  measured (this w') = true ∧
  visibleCount (this w')
  = fit_count (measure_widths (this w)) (containerWidth_of parentElement) ∧
  isUpdatePending (this w') = true ∧
  "measuredWidths" ∈ changedProperties (this w') ∧
  tasks w' = delete n (tasks w) ++ (if b then [FirstUpdatedRest] else []) ∧
  timers w' = timers w ∧ observers w' = observers w.
Proof.
  intros Htask Hres. unfold step in Hres. rewrite Htask in Hres. simplify_eq.
  unfold resume, measureAllItems_rest.
  set (c := set_measuredWidths (measure_widths (this w)) (this w)).
  assert (Hp : isUpdatePending
                 (computeVisibleForCurrentWidth parentElement
                    (set_measured true c)) = true)
    by (apply computeVisible_keeps_pending, set_measured_keeps_pending;
        reflexivity).
  assert (Hin : "measuredWidths" ∈ changedProperties
                  (computeVisibleForCurrentWidth parentElement
                     (set_measured true c))).
  { apply computeVisible_keeps_changed, set_measured_keeps_changed.
    apply elem_of_requestUpdate. by left. }
  unfold c in *.
  destruct b; world_proj; comp_proj; rewrite ?app_nil_r; done.
Qed.

Lemma X15_measurement_fits_once_witness :
  match run initial (take 4 replace_items_trace) with
  | Some w =>
      match step w (Resume 0 (Some (element_of_width 200))) with
      | Some w' => fits w' = [(0, px 200)]
      | None => False
      end
  | None => False
  end.
Proof.
  destruct (run initial (take 4 replace_items_trace)) as [w|] eqn:Hw;
    [|vm_compute in Hw; discriminate Hw].
  destruct (step w (Resume 0 (Some (element_of_width 200)))) as [w'|] eqn:H1;
    [|vm_compute in Hw; simplify_eq; vm_compute in H1; discriminate H1].
  destruct (X15_measurement_fits_once w w' 0 true
              (Some (element_of_width 200))) as [Hfits _].
  - vm_compute in Hw. simplify_eq. reflexivity.
  - exact H1.
  - rewrite Hfits. vm_compute in Hw. simplify_eq. reflexivity.
Defined.

(** ** What is shown after a fit *)

(** X16. After a fit computation on a measured component with a renderer,
    render shows exactly the items that fit: nothing when none fits,
    otherwise the first n items in order, each rendered with its own
    index, where n is the count the scan gives for the stored widths and
    the container width (never more spans than items). *)
Theorem X16_render_shows_what_fits
    (c : OverflowWc) (parentElement : option HTMLElement)
    (r : Item → nat → TemplateResult) :
  renderer c = Some r →
  measured c = true →
  let n := fit_count (measuredWidths c) (containerWidth_of parentElement) in
  render (computeVisibleForCurrentWidth parentElement c)
  = if n =? 0 then nothing
    else Spans (imap (λ index item, r item index) (take n (items c))).
Proof.
  intros Hr Hm n. unfold render.
  rewrite computeVisible_renderer, Hr, computeVisible_measured, Hm.
  rewrite visibleCount_computeVisible, computeVisible_items. reflexivity.
Qed.

Lemma X16_render_shows_what_fits_witness :
  render (computeVisibleForCurrentWidth (Some (element_of_width 90)) two_visible)
  = Spans [html "a"; html "b"].
Proof.
  apply (X16_render_shows_what_fits two_visible
           (Some (element_of_width 90)) plain_renderer); reflexivity.
Defined.

(** ** Notifications that are not a burst *)

Lemma elapse_fires_keeps fuel parentAt o t tend w :
  armed o t w → t + 50 ≤ tend →
  ∃ w', elapse (S fuel) parentAt tend w = Some w' ∧
        fits w' = fits w ++ [(t + 50, containerWidth_of (parentAt (t + 50)))] ∧
        timer_inv w' ∧ timers w' = [] ∧ clock w' = tend ∧
        o ∈ (observers w').*1.
Proof.
  intros (Hinv & [h Ht] & Hclock & Ho) Hend.
  cbn [elapse]. rewrite Ht.
  destruct (Nat.leb_spec (t + 50) tend); [|lia].
  rewrite Hclock, Nat.max_l by lia.
  assert (Hadv : step w (AdvanceTo (t + 50)) = Some (with_clock (t + 50) w)).
  { unfold step. rewrite Hclock.
    destruct (Nat.leb_spec t (t + 50)); [reflexivity|lia]. }
  rewrite Hadv.
  assert (Hfire : step (with_clock (t + 50) w)
                    (TimerFire (parentAt (clock (with_clock (t + 50) w))))
                  = Some (resize_timer_callback (parentAt (t + 50))
                            (with_timers [] (with_clock (t + 50) w)))).
  { unfold step. world_proj. rewrite Ht.
    destruct (Nat.leb_spec (t + 50) (t + 50)); [reflexivity|lia]. }
  rewrite Hfire.
  rewrite elapse_quiet; [|reflexivity|unfold resize_timer_callback; world_proj; lia].
  eexists. split; [reflexivity|].
  destruct Hinv as [Hnext _].
  unfold resize_timer_callback, timer_inv. world_proj.
  repeat split; try done. by left.
Qed.

Lemma spaced_run parentAt o tend ts : ∀ t w,
  armed o t w → spaced t ts → last_time t ts + 50 ≤ tend →
  ∃ w1 w', notifications parentAt o ts w = Some w1 ∧
           elapse (length (timers w1)) parentAt tend w1 = Some w' ∧
           fits w'
           = fits w ++ ((λ t, (t + 50, containerWidth_of (parentAt (t + 50))))
                          <$> (t :: ts)) ∧
           timers w' = [] ∧ clock w' = tend.
Proof.
  induction ts as [|t' ts IH]; intros t w Harmed Hsp Hend.
  - exists w. cbn [notifications].
    assert (Hlen : length (timers w) = 1).
    { destruct Harmed as (_ & [h Ht] & _). by rewrite Ht. }
    rewrite Hlen.
    destruct (elapse_fires_keeps 0 parentAt o t tend w Harmed Hend)
      as (w' & Hel & Hfits & _ & Ht' & Hclock' & _).
    exists w'. done.
  - destruct Hsp as [Hgap Hsp]. rewrite last_time_cons in Hend.
    cbn [notifications].
    assert (Hlen : length (timers w) = 1).
    { destruct Harmed as (_ & [h Ht] & _). by rewrite Ht. }
    rewrite Hlen.
    destruct (elapse_fires_keeps 0 parentAt o t t' w Harmed Hgap)
      as (wa & Hel & Hfitsa & Hinva & Hta & Hclocka & Hoa).
    rewrite Hel.
    destruct (step_notify_rearms o wa Hinva Hoa)
      as (wb & Hstep & Harmedb & Hfitsb & _).
    rewrite Hstep. rewrite Hclocka in Harmedb.
    destruct (IH t' wb Harmedb Hsp Hend) as (w1 & w' & Hn & Hel' & Hfits' & Ht' & Hc').
    exists w1, w'. split; [exact Hn|]. split; [exact Hel'|].
    split; [|done].
    rewrite Hfits', Hfitsb, Hfitsa, <- app_assoc. reflexivity.
Qed.

(** X17. The debounce does not swallow separate resizes.  When every
    notification comes at least 50 ms after the one before it, each
    notification leads to its own fit computation, 50 ms after it, with
    the container width the parent has at that time; afterwards no
    timeout is pending. *)
Theorem X17_separate_notifications_each_fit
    (parentAt : nat → option HTMLElement) (o : nat) (w : World)
    (t : nat) (ts : list nat) (tend : nat) :
  timers w = [] →
  0 < nextTimer w →
  o ∈ (observers w).*1 →
  clock w ≤ t →
  spaced t ts →
  last_time t ts + 50 ≤ tend →
  ∃ w', burst parentAt o (t :: ts) tend w = Some w' ∧
        fits w'
        = fits w ++ ((λ t, (t + 50, containerWidth_of (parentAt (t + 50))))
                       <$> (t :: ts)) ∧
        timers w' = [] ∧
        clock w' = tend.
Proof.
  intros Ht Hnext Ho Hclock Hsp Hend.
  assert (Hinv : timer_inv w) by (split; [done|by left]).
  unfold burst. cbn [notifications].
  rewrite (elapse_quiet _ parentAt t w Ht Hclock).
  destruct (step_notify_rearms o (with_clock t w)
              (timer_inv_with_clock t w Hinv) Ho)
    as (w0 & Hstep & Harmed & Hfits0 & _).
  rewrite Hstep. world_proj.
  destruct (spaced_run parentAt o tend ts t w0 Harmed Hsp Hend)
    as (w1 & w' & Hn & Hel & Hfits & Ht' & Hc').
  rewrite Hn. exists w'. split; [exact Hel|].
  rewrite Hfits, Hfits0. done.
Qed.

Lemma X17_separate_notifications_each_fit_witness :
  ∃ w', burst shrinking_parent 0 [0; 60] 200 observed_world = Some w' ∧
        fits w' = [(50, px 120); (110, px 120)].
Proof.
  destruct (X17_separate_notifications_each_fit shrinking_parent 0
              observed_world 0 [60] 200) as (w' & Hrun & Hfits & _).
  - reflexivity.
  - simpl; lia.
  - apply list_elem_of_singleton. reflexivity.
  - simpl; lia.
  - simpl; lia.
  - vm_compute; lia.
  - exists w'. split; [exact Hrun|]. rewrite Hfits. reflexivity.
Defined.
